(** * novel_crawler: chapter ordering, link classification and the crawl loops

    A shallow embedding of [src/novel_crawler.py].  Python [str] values are
    sequences of Unicode code points, integers are unbounded, dictionaries
    with a fixed set of keys are records, and the pages handed back by the
    browser are seen through the scans the program performs on them. *)

From Stdlib Require Import ZArith List Bool Lia String Ascii Sorting.Sorted
  Sorting.Permutation.
From stdpp Require Import base decidable countable gmap.
Import ListNotations.

Local Open Scope Z_scope.
Local Open Scope list_scope.

(** ** Python strings *)

(** A [str] is a list of code points. *)
Definition pystr : Type := list Z.

(** Source literals are written as UTF-8 text and decoded once. *)
Definition bytes_of_string (s : string) : list Z :=
  List.map (fun a => Z.of_nat (nat_of_ascii a)) (list_ascii_of_string s).

Fixpoint utf8_decode (bs : list Z) : pystr :=
  match bs with
  | [] => []
  | b :: r =>
      if b <? 128 then b :: utf8_decode r
      else if b <? 224 then
        match r with
        | b1 :: r1 => ((b - 192) * 64 + (b1 - 128)) :: utf8_decode r1
        | [] => []
        end
      else if b <? 240 then
        match r with
        | b1 :: b2 :: r2 =>
            ((b - 224) * 4096 + (b1 - 128) * 64 + (b2 - 128)) :: utf8_decode r2
        | _ => []
        end
      else
        match r with
        | b1 :: b2 :: b3 :: r3 =>
            ((b - 240) * 262144 + (b1 - 128) * 4096 + (b2 - 128) * 64
             + (b3 - 128)) :: utf8_decode r3
        | _ => []
        end
  end.

Definition py (s : string) : pystr := utf8_decode (bytes_of_string s).

(** [str.isspace] of one character, which is also what [\s] matches in a
    [str] pattern and what [str.strip()] removes. *)
Definition is_space (c : Z) : bool :=
  ((9 <=? c) && (c <=? 13)) || ((28 <=? c) && (c <=? 32))
  || (c =? 133) || (c =? 160) || (c =? 5760)
  || ((8192 <=? c) && (c <=? 8202))
  || (c =? 8232) || (c =? 8233) || (c =? 8239) || (c =? 8287) || (c =? 12288).

(** The code points of the zero digit of every decimal script (Unicode
    category Nd, Unicode 14): the nine that follow each one are its digits
    1 to 9.  [\d] in a [str] pattern matches exactly these characters and
    [int] reads each one as its decimal value. *)
Definition decimal_zeros : list Z :=
  [48; 1632; 1776; 1984; 2406; 2534; 2662; 2790; 2918; 3046; 3174; 3302;
   3430; 3558; 3664; 3792; 3872; 4160; 4240; 6112; 6160; 6470; 6608; 6784;
   6800; 6992; 7088; 7232; 7248; 42528; 43216; 43264; 43472; 43504; 43600;
   44016; 65296; 66720; 68912; 69734; 69872; 69942; 70096; 70384; 70736;
   70864; 71248; 71360; 71472; 71904; 72016; 72784; 73040; 73120; 92768;
   92864; 93008; 120782; 120792; 120802; 120812; 120822; 123200; 123632;
   125264; 130032].

Fixpoint decimal_in (zs : list Z) (c : Z) : option Z :=
  match zs with
  | [] => None
  | z :: zs' =>
      if (z <=? c) && (c <? z + 10) then Some (c - z) else decimal_in zs' c
  end.

Definition digit_value (c : Z) : option Z := decimal_in decimal_zeros c.

Definition is_digit (c : Z) : bool :=
  match digit_value c with Some _ => true | None => false end.

(** The value of [int(s)] for a string of decimal digits that [int]
    accepts. *)
Definition int_of (s : pystr) : Z :=
  fold_left (fun acc c => acc * 10 + default 0 (digit_value c)) s 0.

(** [int] reads at most 4300 digits, zeros in front included; on a longer
    string it raises [ValueError]. *)
Definition INT_MAX_STR_DIGITS : Z := 4300.

Definition int_accepts (s : pystr) : bool :=
  Z.of_nat (List.length s) <=? INT_MAX_STR_DIGITS.

Fixpoint span (p : Z -> bool) (s : pystr) : pystr * pystr :=
  match s with
  | [] => ([], [])
  | c :: s' =>
      if p c then let '(a, b) := span p s' in (c :: a, b) else ([], s)
  end.

Fixpoint lstrip (s : pystr) : pystr :=
  match s with
  | [] => []
  | c :: s' => if is_space c then lstrip s' else s
  end.

Definition rstrip (s : pystr) : pystr := rev (lstrip (rev s)).

(** [s.strip()] *)
Definition strip (s : pystr) : pystr := rstrip (lstrip s).

Fixpoint startswith (s w : pystr) : bool :=
  match w, s with
  | [], _ => true
  | c :: w', d :: s' => (c =? d) && startswith s' w'
  | _ :: _, [] => false
  end.

(** [w in s] *)
Fixpoint contains (w s : pystr) : bool :=
  startswith s w
  || match s with
     | [] => false
     | _ :: s' => contains w s'
     end.

(** [s.endswith(w)] *)
Definition endswith (s w : pystr) : bool := startswith (rev s) (rev w).

(** [len(s)] *)
Definition len {T : Type} (s : list T) : Z := Z.of_nat (List.length s).

Fixpoint str_eqb (a b : pystr) : bool :=
  match a, b with
  | [], [] => true
  | c :: a', d :: b' => (c =? d) && str_eqb a' b'
  | _, _ => false
  end.

Definition ch (s : string) : Z := hd 0 (py s).

(** ** Characters and words the program looks for *)

Definition c_di : Z := Eval vm_compute in ch "第".
Definition c_zhang : Z := Eval vm_compute in ch "章".
Definition c_jie : Z := Eval vm_compute in ch "节".
Definition c_hui : Z := Eval vm_compute in ch "回".
Definition c_shi : Z := Eval vm_compute in ch "十".
Definition c_slash : Z := Eval vm_compute in ch "/".
Definition c_dot : Z := Eval vm_compute in ch ".".
Definition c_colon : Z := Eval vm_compute in ch ":".
Definition c_newline : Z := 10.

Definition s_dot_html : pystr := Eval vm_compute in py ".html".
Definition s_dot_html_nl : pystr := Eval vm_compute in py ".html" ++ [c_newline].

(** [ch_num_map] of [extract_chapter_number], in the order of the source. *)
Definition ch_num_map : list (Z * Z) :=
  Eval vm_compute in
  [(ch "一", 1); (ch "二", 2); (ch "三", 3); (ch "四", 4); (ch "五", 5);
   (ch "六", 6); (ch "七", 7); (ch "八", 8); (ch "九", 9); (ch "十", 10);
   (ch "百", 100); (ch "千", 1000); (ch "万", 10000); (ch "零", 0)].

Fixpoint dict_get (d : list (Z * Z)) (k : Z) : option Z :=
  match d with
  | [] => None
  | (k', v) :: d' => if k =? k' then Some v else dict_get d' k
  end.

(** ** The patterns of the ordering engine, compiled by hand

    Each matcher follows what [re.search] does for its pattern: the leftmost
    start wins, a greedy repetition takes the longest run first.  Where a
    run is followed in the pattern by a character that the run's class
    excludes, giving characters back can never help, so only the maximal
    run is tried. *)

(** The class [[一二三四五六七八九十百千万零\d]]. *)
Definition is_numeral_char (c : Z) : bool :=
  match dict_get ch_num_map c with Some _ => true | None => is_digit c end.

(** [re.search(r'第([一二三四五六七八九十百千万零\d]+)章', s)], group 1. *)
Fixpoint search_di_zhang (s : pystr) : option pystr :=
  match s with
  | [] => None
  | c :: s' =>
      if c =? c_di then
        match span is_numeral_char s' with
        | ((_ :: _) as run, c2 :: _) =>
            if c2 =? c_zhang then Some run else search_di_zhang s'
        | _ => search_di_zhang s'
        end
      else search_di_zhang s'
  end.

(** [re.search(r'(\d+)[章节]', s)], group 1. *)
Fixpoint search_num_zhang (s : pystr) : option pystr :=
  match s with
  | [] => None
  | c :: s' =>
      if is_digit c then
        match span is_digit (c :: s') with
        | (run, c2 :: _) =>
            if (c2 =? c_zhang) || (c2 =? c_jie) then Some run
            else search_num_zhang s'
        | _ => search_num_zhang s'
        end
      else search_num_zhang s'
  end.

(** The tail [(\d+)[\s\.\:]] of the third pattern, tried at one position. *)
Definition digits_then_sep (s : pystr) : option pystr :=
  match span is_digit s with
  | ((_ :: _) as run, c2 :: _) =>
      if is_space c2 || (c2 =? c_dot) || (c2 =? c_colon) then Some run
      else None
  | _ => None
  end.

(** [re.search(r'^[\s\d\.]*(\d+)[\s\.\:]', s)], group 1: the greedy star
    first takes one more character of its class and only when the rest then
    fails does it stop here and let the group start. *)
Fixpoint match_leading_number (s : pystr) : option pystr :=
  match s with
  | [] => None
  | c :: s' =>
      if is_space c || is_digit c || (c =? c_dot) then
        match match_leading_number s' with
        | Some g => Some g
        | None => digits_then_sep s
        end
      else digits_then_sep s
  end.

(** [re.search(r'/(\d+)\.html$', s)], group 1.  Without [re.MULTILINE] the
    anchor [$] holds at the end of the string and just before a newline that
    ends it. *)
Fixpoint search_numeric_html (s : pystr) : option pystr :=
  match s with
  | [] => None
  | c :: s' =>
      if c =? c_slash then
        match span is_digit s' with
        | ((_ :: _) as run, rest) =>
            if str_eqb rest s_dot_html || str_eqb rest s_dot_html_nl
            then Some run
            else search_numeric_html s'
        | _ => search_numeric_html s'
        end
      else search_numeric_html s'
  end.

(** A match object is truthy, [None] is not. *)
Definition matched {T : Type} (m : option T) : bool :=
  match m with Some _ => true | None => false end.

(** ** [extract_chapter_number] *)

Definition extract_chapter_number (title : pystr) : option Z :=
  match search_di_zhang title with
  | Some num_str =>
      (* num_str.isdigit(): the characters of the group are numerals of the
         class above, of which exactly the decimal digits are digits *)
      if forallb is_digit num_str then Some (int_of num_str)
      else
        match num_str with
        | [c] =>
            match dict_get ch_num_map c with
            | Some v => Some v
            | None => Some 999
            end
        | [c0; c1] =>
            if c0 =? c_shi then
              match dict_get ch_num_map c1 with
              | Some v => Some (10 + v)
              | None => Some 999
              end
            else Some 999
        | _ => Some 999
        end
  | None =>
      match search_num_zhang title with
      | Some g => Some (int_of g)
      | None =>
          match match_leading_number title with
          | Some g => Some (int_of g)
          | None => None
          end
      end
  end.

(** Whether [extract_chapter_number] raises [ValueError]: its calls of
    [int] are not guarded, so it does when the digits it has matched are
    more than [int] accepts.  [extract_chapter_number] above gives what is
    returned otherwise. *)
Definition extract_chapter_number_raises (title : pystr) : bool :=
  match search_di_zhang title with
  | Some num_str => forallb is_digit num_str && negb (int_accepts num_str)
  | None =>
      match search_num_zhang title with
      | Some g => negb (int_accepts g)
      | None =>
          match match_leading_number title with
          | Some g => negb (int_accepts g)
          | None => false
          end
      end
  end.

(** ** The ordering engine: [process_and_sort_chapters] *)

(** What the sorter reads of an entry: its title and its url, each the
    empty string when the key is missing ([dict.get] with that default).  It is applied to the candidates of a listing
    page and to the records of fetched chapters alike. *)
Class ChapterLike (A : Type) := {
  get_title : A -> pystr;
  get_url : A -> pystr
}.

(** An element of [chapters_with_info]. *)
Record chapter_info (A : Type) := mk_info {
  original_index : nat;
  info_title : pystr;
  info_url : pystr;
  chapter_num : option Z;
  url_num : option Z;
  sequence : Z;
  priority : Z;
  original : A
}.
Arguments mk_info {A}.
Arguments original_index {A}.
Arguments info_title {A}.
Arguments info_url {A}.
Arguments chapter_num {A}.
Arguments url_num {A}.
Arguments sequence {A}.
Arguments priority {A}.
Arguments original {A}.

(** [x == n] for [x] an integer or [None]. *)
Definition is_num (x : option Z) (n : Z) : bool :=
  match x with Some v => v =? n | None => false end.

(** [x and x < n]: [None] and [0] are falsy. *)
Definition truthy_below (x : option Z) (n : Z) : bool :=
  match x with Some v => negb (v =? 0) && (v <? n) | None => false end.

Definition is_none (x : option Z) : bool :=
  match x with Some _ => false | None => true end.

Definition w_xu : pystr := Eval vm_compute in py "序".
Definition w_qianyan : pystr := Eval vm_compute in py "前言".
Definition w_xiezi : pystr := Eval vm_compute in py "楔子".
Definition w_jianjie : pystr := Eval vm_compute in py "简介".
Definition w_first : pystr := Eval vm_compute in py "第一章".
Definition w_second : pystr := Eval vm_compute in py "第二章".
Definition w_third : pystr := Eval vm_compute in py "第三章".

Definition is_preface (title : pystr) : bool :=
  contains w_xu title || contains w_qianyan title || contains w_xiezi title
  || contains w_jianjie title.

(** The number in the URL: the pattern's group read by [int], and [None]
    when [int] raises [ValueError], which the source catches here. *)
Definition url_number (url : pystr) : option Z :=
  match search_numeric_html url with
  | Some g => if int_accepts g then Some (int_of g) else None
  | None => None
  end.

Definition sequence_of (title : pystr) (url_num chapter_num : option Z) : Z :=
  if is_preface title then 0
  else if is_num url_num 1 || is_num chapter_num 1 || contains w_first title
  then 1
  else if is_num url_num 2 || is_num chapter_num 2 || contains w_second title
  then 2
  else if is_num url_num 3 || is_num chapter_num 3 || contains w_third title
  then 3
  else 0.

Definition priority_of (title : pystr) (url_num chapter_num : option Z) : Z :=
  if is_num url_num 1 || (contains w_first title && is_none url_num) then 1000
  else if is_num url_num 2 || (contains w_second title && is_none url_num)
  then 900
  else if is_num url_num 3 || (contains w_third title && is_none url_num)
  then 800
  else if truthy_below url_num 10 then 700 - default 0 url_num
  else if is_preface title then 500
  else if truthy_below url_num 100 then 400 - default 0 url_num
  else if truthy_below chapter_num 100 then 300 - default 0 chapter_num
  else 0.

(** The tuple the sort compares. *)
Definition sort_key : Type := (Z * Z * Z * Z * Z)%type.

(** [a < b] on tuples of integers: the first position where they differ
    decides. *)
Definition key_ltb (a b : sort_key) : bool :=
  let '(a1, a2, a3, a4, a5) := a in
  let '(b1, b2, b3, b4, b5) := b in
  if negb (a1 =? b1) then a1 <? b1
  else if negb (a2 =? b2) then a2 <? b2
  else if negb (a3 =? b3) then a3 <? b3
  else if negb (a4 =? b4) then a4 <? b4
  else a5 <? b5.

(** The same order as a proposition: ascending by the first component, ties
    broken by the second, and so on. *)
Definition lex_lt (a b : sort_key) : Prop :=
  let '(a1, a2, a3, a4, a5) := a in
  let '(b1, b2, b3, b4, b5) := b in
  a1 < b1 \/ (a1 = b1 /\ (a2 < b2 \/ (a2 = b2 /\ (a3 < b3 \/ (a3 = b3 /\
  (a4 < b4 \/ (a4 = b4 /\ a5 < b5))))))).

Definition lex_le (a b : sort_key) : Prop := lex_lt a b \/ a = b.

(** The order on the first four components, the ones that do not depend on
    the position in the input. *)
Definition rank : Type := (Z * Z * Z * Z)%type.

Definition rank_le (a b : rank) : Prop :=
  let '(a1, a2, a3, a4) := a in
  let '(b1, b2, b3, b4) := b in
  a1 < b1 \/ (a1 = b1 /\ (a2 < b2 \/ (a2 = b2 /\ (a3 < b3 \/ (a3 = b3 /\
  a4 <= b4))))).

(** An ordinal that may be absent, absent counting as plus infinity: the
    reading of the specification, kept apart from the key of the code. *)
Definition ordinal_ltb (x y : option Z) : bool :=
  match x, y with
  | Some a, Some b => a <? b
  | Some _, None => true
  | None, _ => false
  end.

Definition ordinal_eqb (x y : option Z) : bool :=
  match x, y with
  | Some a, Some b => a =? b
  | None, None => true
  | _, _ => false
  end.

Section Ordering.
Context {A : Type} `{ChapterLike A}.

(** The body of the loop over [enumerate(chapters)].  The chapter-number
    statistics gathered alongside only feed the log. *)
Definition analyse (i : nat) (chapter : A) : chapter_info A :=
  let title := strip (get_title chapter) in
  let url := get_url chapter in
  let url_num := url_number url in
  let chapter_num := extract_chapter_number title in
  mk_info i title url chapter_num url_num
    (sequence_of title url_num chapter_num)
    (priority_of title url_num chapter_num)
    chapter.

Fixpoint enumerate_from (i : nat) (chapters : list A) : list (chapter_info A) :=
  match chapters with
  | [] => []
  | chapter :: rest => analyse i chapter :: enumerate_from (S i) rest
  end.

(** The [key=] function of the sort. *)
Definition key_of (x : chapter_info A) : sort_key :=
  (default 999999 (url_num x),
   default 999999 (chapter_num x),
   - priority x,
   sequence x,
   Z.of_nat (original_index x)).

(** [list.sort(key=...)] is a stable sort that compares keys with [<]:
    an element is put in front of the first one whose key is not smaller
    than its own. *)
Fixpoint insert_sorted (x : chapter_info A) (l : list (chapter_info A))
  : list (chapter_info A) :=
  match l with
  | [] => [x]
  | y :: l' =>
      if key_ltb (key_of y) (key_of x) then y :: insert_sorted x l'
      else x :: y :: l'
  end.

Fixpoint sort_by_key (l : list (chapter_info A)) : list (chapter_info A) :=
  match l with
  | [] => []
  | x :: l' => insert_sorted x (sort_by_key l')
  end.

(** The first four components of the key of an entry. *)
Definition rank_of (chapter : A) : rank :=
  let '(k1, k2, k3, k4, _) := key_of (analyse 0 chapter) in (k1, k2, k3, k4).

(** Ascending in the key, ties allowed. *)
Definition ascending (x y : chapter_info A) : Prop :=
  lex_le (key_of x) (key_of y).

(** Ascending by rank, the order the output is in. *)
Definition ranked (c d : A) : Prop := rank_le (rank_of c) (rank_of d).

(** Strict precedence as the specification words it: location ordinal
    (absent last), title ordinal (absent last), priority (higher first),
    special sequence, original position. *)
Definition spec_precedes (x y : chapter_info A) : bool :=
  if negb (ordinal_eqb (url_num x) (url_num y))
  then ordinal_ltb (url_num x) (url_num y)
  else if negb (ordinal_eqb (chapter_num x) (chapter_num y))
  then ordinal_ltb (chapter_num x) (chapter_num y)
  else if negb (- priority x =? - priority y)
  then - priority x <? - priority y
  else if negb (sequence x =? sequence y) then sequence x <? sequence y
  else (original_index x <? original_index y)%nat.

(** [chapters_with_info] after the sort. *)
Definition sorted_infos (chapters : list A) : list (chapter_info A) :=
  sort_by_key (enumerate_from 0 chapters).

Definition process_and_sort_chapters (chapters : list A) : list A :=
  match chapters with
  | [] => []
  | _ => List.map original (sorted_infos chapters)
  end.

(** Whether [process_and_sort_chapters] raises: it does when reading the
    number of one of the titles does.  The list above is what it returns
    otherwise. *)
Definition process_and_sort_chapters_raises (chapters : list A) : bool :=
  existsb (fun c => extract_chapter_number_raises (strip (get_title c)))
    chapters.
End Ordering.

(** A chapter candidate of a listing page: a dictionary with the keys
    title and url. *)
Record chapter := mk_chapter { title : pystr; url : pystr }.

#[export] Instance chapter_like : ChapterLike chapter :=
  {| get_title := title; get_url := url |}.

(** ** The link classifier: [is_likely_chapter_link] *)

Inductive reason :=
| NonChapterKeyword   (* 非章节关键词 *)
| TitleTooShort       (* 标题过短 *)
| OrdinalMarker       (* 包含'第x章'格式 *)
| LeadingNumber       (* 数字开头 *)
| SpecialSection      (* 特殊章节名 *)
| NumericPath         (* URL格式为数字.html *)
| NoPattern.          (* 无匹配模式 *)

Definition blocklist : list pystr :=
  Eval vm_compute in
  List.map py ["登录"; "注册"; "首页"; "登陆"; "帮助"; "设置"]%string.

Definition special_names : list pystr :=
  Eval vm_compute in
  List.map py
    ["序言"; "序章"; "前言"; "引言"; "楔子"; "尾声"; "后记"; "番外"]%string.

Definition is_marker_char (c : Z) : bool :=
  (c =? c_zhang) || (c =? c_jie) || (c =? c_hui).

(** [re.search(r'第.+[章节回]', s)]: after a 第, [.+] runs over characters
    other than a newline and must leave one of 章节回 behind it, so one of
    them has to occur in that run after its first character. *)
Fixpoint search_ordinal_marker (s : pystr) : bool :=
  match s with
  | [] => false
  | c :: s' =>
      ((c =? c_di)
       && existsb is_marker_char
            (tl (fst (span (fun d => negb (d =? c_newline)) s'))))
      || search_ordinal_marker s'
  end.

(** [re.search(r'^\d+\.?\s*\D+', s)]: the digits are taken to the end of
    their run, and since [\.?] and [\s*] may both match nothing, the one
    character [\D+] needs is the first one after the run. *)
Definition match_leading_digits (s : pystr) : bool :=
  match span is_digit s with
  | (_ :: _, _ :: _) => true
  | _ => false
  end.

Definition is_likely_chapter_link (title href : pystr) : bool * reason :=
  let title := strip title in
  if existsb (fun x => contains x title) blocklist then (false, NonChapterKeyword)
  else if len title <? 2 then (false, TitleTooShort)
  else if search_ordinal_marker title then (true, OrdinalMarker)
  else if match_leading_digits title then (true, LeadingNumber)
  else if existsb (fun x => contains x title) special_names
  then (true, SpecialSection)
  else if matched (search_numeric_html href) then (true, NumericPath)
  else (false, NoPattern).

(** ** [is_directory_page] *)

Definition is_directory_page (url : pystr) : bool :=
  if endswith url [c_slash] || negb (endswith url s_dot_html) then true
  else if matched (search_numeric_html url) then false
  else true.

(** ** The collaborators

    The browser and the scans of a page's markup (BeautifulSoup and the
    markup patterns of [crawl_chapter] and [crawl_index_page]) are outside
    the core: the model takes what they return. *)
Class Site := {
  (** [(await crawler.arun(url=u)).html], [None] when the call raises. *)
  arun : pystr -> option pystr;
  (** [urllib.parse.urljoin] *)
  urljoin : pystr -> pystr -> pystr;
  (** [content] of [crawl_chapter] after the [div] lookups and the
      [content_patterns] fallback; empty when nothing matched. *)
  body_text : pystr -> pystr;
  clean_content : pystr -> pystr;
  (** First group matched by [title_patterns], stripped. *)
  page_title : pystr -> option pystr;
  (** First group matched by [prev_patterns], [next_patterns],
      [index_patterns]. *)
  prev_href : pystr -> option pystr;
  next_href : pystr -> option pystr;
  index_href : pystr -> option pystr;
  meta_novel_name : pystr -> option pystr;
  meta_author : pystr -> option pystr;
  meta_category : pystr -> option pystr;
  (** [novel_name] and [author] of [crawl_index_page] after their pattern
      cascades, defaults included. *)
  listing_novel_name : pystr -> pystr;
  listing_author : pystr -> pystr;
  (** [content_html] of [crawl_index_page] after the three region
      heuristics; empty when none applied. *)
  chapter_region : pystr -> pystr;
  (** [re.findall] of the anchor pattern on a piece of markup: the pairs
      (href, text) of its links, in page order. *)
  find_links : pystr -> list (pystr * pystr);
  (** [re.sub(r'<[^>]+>', '', t)] *)
  remove_tags : pystr -> pystr;
  (** [re.findall] of the anchor pattern whose text holds 第一章 and no
      tag: again pairs (href, text). *)
  find_first_chapter_links : pystr -> list (pystr * pystr);
  (** Group 1 of [re.search(r'<h1[^>]*>(.*?)</h1>', m)]. *)
  h1_title : pystr -> option pystr
}.

(** The record returned by [crawl_chapter]. *)
Record chapter_data := mk_chapter_data {
  cd_title : pystr;
  content : pystr;
  prev_url : pystr;
  next_url : pystr;
  index_url : pystr;
  novel_name : pystr;
  category : pystr;
  author : pystr;
  cd_url : pystr
}.

#[export] Instance chapter_data_like : ChapterLike chapter_data :=
  {| get_title := cd_title; get_url := cd_url |}.

(** The dictionary returned by [crawl_index_page]. *)
Record novel_index := mk_novel_index {
  idx_novel_name : pystr;
  idx_author : pystr;
  chapters : list chapter
}.

(** [bool(s)] of a string. *)
Definition nonempty (s : pystr) : bool :=
  match s with [] => false | _ :: _ => true end.

(** [a or b] where [a] is a string or [None]. *)
Definition or_else (a : option pystr) (b : option pystr) : option pystr :=
  match a with
  | Some (_ :: _) => a
  | _ => b
  end.

(** [os.path.basename]: what follows the last slash. *)
Fixpoint basename (s : pystr) : pystr :=
  match s with
  | [] => []
  | c :: s' =>
      if existsb (Z.eqb c_slash) s' then basename s'
      else if c =? c_slash then s' else s
  end.

Definition s_unknown_novel : pystr := Eval vm_compute in py "未知小说".
Definition s_unknown_author : pystr := Eval vm_compute in py "未知作者".
Definition s_unknown_category : pystr := Eval vm_compute in py "未知分类".

(** The least number of characters a chapter body must keep after
    [strip()]. *)
Definition MIN_CONTENT_LENGTH : Z := 20.

Section Crawler.
Context `{Site}.

(** ** [crawl_chapter]: [None] for a failed fetch, which is also what the
    [except] clause around the whole body returns. *)
Definition crawl_chapter (chapter_url : pystr)
    (novel_name author : option pystr) : option chapter_data :=
  match arun chapter_url with
  | None => None
  | Some html =>
      let content := body_text html in
      if negb (nonempty content) || (len (strip content) <? MIN_CONTENT_LENGTH)
      then None
      else
        let content := clean_content content in
        let title := default (basename chapter_url) (page_title html) in
        let joined (h : option pystr) : pystr :=
          match h with Some r => urljoin chapter_url r | None => [] end in
        let novel_name :=
          default s_unknown_novel
            (or_else novel_name
               (or_else (meta_novel_name html) (Some s_unknown_novel))) in
        let author :=
          default s_unknown_author
            (or_else author
               (or_else (meta_author html) (Some s_unknown_author))) in
        Some (mk_chapter_data title content
                (joined (prev_href html)) (joined (next_href html))
                (joined (index_href html))
                novel_name
                (default s_unknown_category (meta_category html))
                author chapter_url)
  end.
End Crawler.

(** ** [crawl_index_page] *)

Definition w_first_ascii : pystr := Eval vm_compute in py "第1章".
Definition w_first_wide : pystr := Eval vm_compute in py "第１章".
Definition s_div_id_content : pystr :=
  Eval vm_compute in py "<div id=" ++ [34] ++ py "content" ++ [34].
Definition s_div_class_content : pystr :=
  Eval vm_compute in py "<div class=" ++ [34] ++ py "content" ++ [34].

(** The identifiers tried for a first chapter, as [str] prints them. *)
Definition probe_ids : list pystr :=
  Eval vm_compute in List.map py ["1"; "1000"; "10000"; "100000"; "1000000"]%string.

Definition names_first_chapter (title : pystr) : bool :=
  contains w_first title || contains w_first_ascii title
  || contains w_first_wide title.

Fixpoint after_last_newline (s : pystr) : pystr :=
  match s with
  | [] => []
  | c :: s' =>
      if existsb (Z.eqb c_newline) s' then after_last_newline s'
      else if c =? c_newline then s' else s
  end.

(** Where [/(\d+)\.html$] matches: the text up to and with the slash, and
    the digits. *)
Fixpoint split_numeric_html (s : pystr) : option (pystr * pystr) :=
  match s with
  | [] => None
  | c :: s' =>
      let here :=
        if c =? c_slash then
          match span is_digit s' with
          | ((_ :: _) as run, rest) =>
              if str_eqb rest s_dot_html || str_eqb rest s_dot_html_nl
              then Some ([c], run) else None
          | _ => None
          end
        else None in
      match here with
      | Some r => Some r
      | None =>
          match split_numeric_html s' with
          | Some (p, d) => Some (c :: p, d)
          | None => None
          end
      end
  end.

(** Groups 1 and 3 of [re.search(r'(.*/)(\d+)(\.html)$', url)]: [.*] does
    not cross a newline, so the prefix starts after the last one before the
    slash. *)
Definition url_pattern (url : pystr) : option (pystr * pystr) :=
  match split_numeric_html url with
  | Some (p, _) => Some (after_last_newline p, s_dot_html)
  | None => None
  end.

Definition has_url (u : pystr) (cs : list chapter) : bool :=
  existsb (fun c => str_eqb (url c) u) cs.

Section Resolver.
Context `{Site}.

(** Step 1: the links of the chapter region. *)
Fixpoint region_chapters (base : pystr) (links : list (pystr * pystr))
  : list chapter :=
  match links with
  | [] => []
  | (href, title) :: rest =>
      let title := strip title in
      if fst (is_likely_chapter_link title href)
      then mk_chapter title (urljoin base href) :: region_chapters base rest
      else region_chapters base rest
  end.

(** Step 2, the scan of the whole page.  The classifier is a function
    defined inside the branch taken when a region was found; [defined]
    tells whether that branch ran.  Calling it otherwise raises, and the
    [except] clause of [crawl_index_page] turns that into [None]. *)
Fixpoint page_chapters (defined : bool) (base : pystr)
    (existing_urls : gset pystr) (links : list (pystr * pystr))
    (all_chapters : list chapter) : option (list chapter) :=
  match links with
  | [] => Some all_chapters
  | (href, title) :: rest =>
      let title := strip (remove_tags title) in
      let chapter_url := urljoin base href in
      if bool_decide (chapter_url ∈ existing_urls)
      then page_chapters defined base existing_urls rest all_chapters
      else if negb defined then None
      else if fst (is_likely_chapter_link title href)
      then page_chapters defined base existing_urls rest
             (all_chapters ++ [mk_chapter title chapter_url])
      else page_chapters defined base existing_urls rest all_chapters
  end.

(** Step 4, first part: links of the raw page whose text holds 第一章. *)
Fixpoint raw_first_chapters (base : pystr) (links : list (pystr * pystr))
    (all_chapters : list chapter) : list chapter :=
  match links with
  | [] => []
  | (href, title) :: rest =>
      let chapter_url := urljoin base href in
      if has_url chapter_url all_chapters
      then raw_first_chapters base rest all_chapters
      else mk_chapter (strip title) chapter_url
           :: raw_first_chapters base rest all_chapters
  end.

(** [url_patterns]: a set of (prefix, suffix) pairs.  Python leaves the
    order in which a set is walked open; the model walks it in the order
    of first insertion. *)
Fixpoint url_patterns (cs : list chapter) (seen : list (pystr * pystr))
  : list (pystr * pystr) :=
  match cs with
  | [] => seen
  | c :: rest =>
      match url_pattern (url c) with
      | Some pat =>
          if existsb (fun q => str_eqb (fst q) (fst pat)
                               && str_eqb (snd q) (snd pat)) seen
          then url_patterns rest seen
          else url_patterns rest (seen ++ [pat])
      | None => url_patterns rest seen
      end
  end.

(** One probe: fetch the candidate and accept it when it looks like the
    page of a first chapter. *)
Definition probe (candidate_url : pystr) : option chapter :=
  match arun candidate_url with
  | None => None
  | Some chapter_html =>
      if contains s_div_id_content chapter_html
         || contains s_div_class_content chapter_html
      then
        match h1_title chapter_html with
        | Some t =>
            let title := strip t in
            if contains w_first title || contains w_first_ascii title
               || is_num (extract_chapter_number title) 1
            then Some (mk_chapter title candidate_url)
            else None
        | None => None
        end
      else None
  end.

(** The inner loop over the identifiers stops at the first success. *)
Fixpoint probe_pattern (prefix suffix : pystr) (ids : list pystr)
  : list chapter :=
  match ids with
  | [] => []
  | chapter_id :: rest =>
      match probe (prefix ++ chapter_id ++ suffix) with
      | Some c => [c]
      | None => probe_pattern prefix suffix rest
      end
  end.

Definition probed_first_chapters (all_chapters : list chapter) : list chapter :=
  flat_map (fun pat => probe_pattern (fst pat) (snd pat) probe_ids)
    (url_patterns all_chapters []).

(** [extract_chapter_number(x.title) or 9999] *)
Definition first_chapter_key (c : chapter) : Z :=
  match extract_chapter_number (title c) with
  | Some v => if v =? 0 then 9999 else v
  | None => 9999
  end.

(** Element 0 after the stable sort by [first_chapter_key]: the earliest
    candidate of least key. *)
Fixpoint best_first_chapter (cs : list chapter) : option chapter :=
  match cs with
  | [] => None
  | c :: rest =>
      match best_first_chapter rest with
      | Some d =>
          if first_chapter_key d <? first_chapter_key c then Some d
          else Some c
      | None => Some c
      end
  end.

(** Step 7, first half: keep the first entry of every url. *)
Fixpoint unique_chapters (cs : list chapter) (unique_urls : gset pystr)
  : list chapter :=
  match cs with
  | [] => []
  | c :: rest =>
      if bool_decide (url c ∈ unique_urls) then unique_chapters rest unique_urls
      else c :: unique_chapters rest ({[url c]} ∪ unique_urls)
  end.

(** Steps 1 to 7 up to the sort: the candidates of the page, [None] when
    an exception ends [crawl_index_page]. *)
Definition collect_chapters (base html : pystr) : option (list chapter) :=
  let content_html := chapter_region html in
  let all_chapters :=
    if nonempty content_html
    then region_chapters base (find_links content_html) else [] in
  let scanned :=
    if len all_chapters <? 10
    then page_chapters (nonempty content_html) base
           (list_to_set (List.map url all_chapters)) (find_links html)
           all_chapters
    else Some all_chapters in
  match scanned with
  | None => None
  | Some all_chapters =>
      let first_chapter_candidates :=
        List.filter (fun c => names_first_chapter (title c)) all_chapters in
      let first_chapter_candidates :=
        match first_chapter_candidates with
        | _ :: _ => first_chapter_candidates
        | [] =>
            match raw_first_chapters base (find_first_chapter_links html)
                    all_chapters with
            | (_ :: _) as found => found
            | [] => probed_first_chapters all_chapters
            end
        end in
      let all_chapters :=
        match best_first_chapter first_chapter_candidates with
        | Some first_chapter =>
            if has_url (url first_chapter) all_chapters then all_chapters
            else first_chapter :: all_chapters
        | None => all_chapters
        end in
      Some (unique_chapters all_chapters ∅)
  end.

Definition crawl_index_page (url : pystr) : option novel_index :=
  match arun url with
  | None => None
  | Some html =>
      match collect_chapters url html with
      | None => None
      | Some unique =>
          Some (mk_novel_index (listing_novel_name html) (listing_author html)
                  (process_and_sort_chapters unique))
      end
  end.
End Resolver.

(** ** The progress file: [save_progress] and its reading on resume *)

(** A chapter as the progress file holds it: the record, and the key index
    once [save_progress] has set it. *)
Record stored_chapter := mk_stored {
  stored_data : chapter_data;
  stored_index : option Z
}.

#[export] Instance stored_chapter_like : ChapterLike stored_chapter :=
  {| get_title x := cd_title (stored_data x);
     get_url x := cd_url (stored_data x) |}.

(** The loop of [save_progress] that numbers the chapters from 0 in the
    order they are in. *)
Fixpoint number_from (i : nat) (chapters : list stored_chapter)
  : list stored_chapter :=
  match chapters with
  | [] => []
  | c :: rest =>
      mk_stored (stored_data c) (Some (Z.of_nat i)) :: number_from (S i) rest
  end.

(** The chapter list [save_progress] writes. *)
Definition save_progress (chapters : list stored_chapter) : list stored_chapter :=
  number_from 0 chapters.

Section StableSort.
Context {T : Type} (key : T -> Z).

(** [list.sort(key=key)] for integer keys, stable as above. *)
Fixpoint insert_by (x : T) (l : list T) : list T :=
  match l with
  | [] => [x]
  | y :: l' => if key y <? key x then y :: insert_by x l' else x :: y :: l'
  end.

Fixpoint sort_by (l : list T) : list T :=
  match l with
  | [] => []
  | x :: l' => insert_by x (sort_by l')
  end.
End StableSort.

(** The key index of a stored chapter, 9999 when it has none. *)
Definition index_key (x : stored_chapter) : Z := default 9999 (stored_index x).

(** [chapters_data] as a resumed run takes it from the progress file: in
    the order of the stored indices when the first chapter has one, in the
    order of the ordering engine otherwise. *)
Definition load_chapters (loaded_chapters : list stored_chapter)
  : list stored_chapter :=
  match loaded_chapters with
  | first :: _ =>
      if matched (stored_index first) then sort_by index_key loaded_chapters
      else process_and_sort_chapters loaded_chapters
  | [] => process_and_sort_chapters loaded_chapters
  end.

(** ** [crawl_multiple_chapters] *)

Inductive mode := IndexDriven | LinkedList.

(** The state of the loop that follows next-chapter links. *)
Record walk_state := mk_walk {
  current_url : pystr;
  count : Z;
  chapters_data : list chapter_data;
  crawled_urls : gset pystr;
  walk_novel_name : option pystr;
  walk_author : option pystr
}.

Inductive step_result :=
| Continue (st : walk_state)   (* back to the loop test *)
| Break (st : walk_state).     (* the loop is left *)

Section Orchestrator.
Context `{Site}.

(** [novel_info] and [total_chapters] when the start url is a listing
    page. *)
Definition listing_entry (url : pystr) : option novel_index * list chapter :=
  match crawl_index_page url with
  | Some novel_info =>
      (Some novel_info, process_and_sort_chapters (chapters novel_info))
  | None => (None, [])
  end.

(** Position of the first entry with this url, 0 when there is none. *)
Fixpoint start_index_of (u : pystr) (cs : list chapter) : nat :=
  match cs with
  | [] => 0
  | c :: rest =>
      if str_eqb (url c) u then 0
      else if has_url u rest then S (start_index_of u rest) else 0
  end.

(** [novel_info] and [total_chapters] when the start url is a chapter
    page. *)
Definition chapter_entry (start_url : pystr)
  : option novel_index * list chapter :=
  match crawl_chapter start_url None None with
  | Some current_chapter =>
      let '(novel_info, total_chapters) :=
        if nonempty (index_url current_chapter) then
          match crawl_index_page (index_url current_chapter) with
          | Some novel_info =>
              let total := process_and_sort_chapters (chapters novel_info) in
              (Some novel_info, skipn (start_index_of start_url total) total)
          | None => (None, [])
          end
        else (None, []) in
      match total_chapters with
      | [] => (novel_info, [mk_chapter (cd_title current_chapter) start_url])
      | _ => (novel_info, total_chapters)
      end
  | None => (None, [])
  end.

(** The test [if total_chapters:] that picks the way of crawling. *)
Definition entry_mode (total_chapters : list chapter) : mode :=
  match total_chapters with
  | [] => LinkedList
  | _ :: _ => IndexDriven
  end.

Definition urls_of (chapters_data : list chapter_data) : gset pystr :=
  list_to_set (List.map cd_url chapters_data).

(** *** Crawling a known list *)

Definition chapters_to_crawl (num_chapters : Z) (total_chapters : list chapter)
  : nat :=
  if 0 <? num_chapters
  then Z.to_nat (Z.min num_chapters (len total_chapters))
  else List.length total_chapters.

Definition crawl_chapter_with_semaphore (crawled : gset pystr)
    (novel_name author : option pystr) (chapter_info : chapter)
  : option chapter_data :=
  if bool_decide (url chapter_info ∈ crawled) then None
  else crawl_chapter (url chapter_info) novel_name author.

(** The loop over the results, which appends those that are records. *)
Fixpoint successes (results : list (option chapter_data)) : list chapter_data :=
  match results with
  | [] => []
  | Some r :: rest => r :: successes rest
  | None :: rest => successes rest
  end.

(** [chapters_data] after the gathered tasks: [asyncio.gather] returns the
    results in the order of the tasks, and the loop over them keeps the
    ones that are records. *)
Definition crawl_listed (num_chapters : Z) (total_chapters : list chapter)
    (chapters_data : list chapter_data) (novel_name author : option pystr)
  : list chapter_data :=
  let crawled := urls_of chapters_data in
  let tasks :=
    List.filter (fun c => negb (bool_decide (url c ∈ crawled)))
      (firstn (chapters_to_crawl num_chapters total_chapters) total_chapters) in
  let results :=
    List.map (crawl_chapter_with_semaphore crawled novel_name author) tasks in
  chapters_data ++ successes results.

(** *** Following next-chapter links *)

(** [next((c.next_url for c in chapters_data if c.url == u), None)] *)
Fixpoint stored_next (u : pystr) (chapters_data : list chapter_data)
  : option pystr :=
  match chapters_data with
  | [] => None
  | c :: rest => if str_eqb (cd_url c) u then Some (next_url c)
                 else stored_next u rest
  end.

Definition walk_budget (num_chapters : Z) : Z :=
  if 0 <? num_chapters then num_chapters else 999.

(** One turn of [while count < chapters_to_crawl].  The progress file
    written after every third chapter belongs to the storage layer. *)
Definition walk_step (budget : Z) (st : walk_state) : step_result :=
  if count st <? budget then
    if bool_decide (current_url st ∈ crawled_urls st) then
      match stored_next (current_url st) (chapters_data st) with
      | Some next =>
          if nonempty next && negb (str_eqb next (current_url st))
          then Continue (mk_walk next (count st) (chapters_data st)
                           (crawled_urls st) (walk_novel_name st)
                           (walk_author st))
          else Break st
      | None => Break st
      end
    else
      match crawl_chapter (current_url st) (walk_novel_name st)
              (walk_author st) with
      | None => Break st
      | Some chapter =>
          let named := match walk_novel_name st with
                       | Some (_ :: _) => true
                       | _ => false
                       end in
          let name := if named then walk_novel_name st
                      else Some (novel_name chapter) in
          let auth := if named then walk_author st
                      else Some (author chapter) in
          let st' next :=
            mk_walk next (count st + 1) (chapters_data st ++ [chapter])
              ({[current_url st]} ∪ crawled_urls st) name auth in
          let next := next_url chapter in
          if negb (nonempty next) || str_eqb next (current_url st)
          then Break (st' (current_url st))
          else if is_directory_page next then Break (st' (current_url st))
          else Continue (st' next)
      end
  else Break st.

(** The loop, run for at most [fuel] turns: [None] when it is still
    running after that many. *)
Fixpoint walk (fuel : nat) (budget : Z) (st : walk_state) : option walk_state :=
  match fuel with
  | O => None
  | S fuel' =>
      match walk_step budget st with
      | Continue st' => walk fuel' budget st'
      | Break st' => Some st'
      end
  end.

(** The state the loop starts from. *)
Definition walk_start (url : pystr) (last_url : option pystr) (resume : bool)
    (loaded : list chapter_data) : walk_state :=
  let start := match last_url with
               | Some ((_ :: _) as u) => if resume then u else url
               | _ => url
               end in
  let first := if resume then head loaded else None in
  mk_walk start 0 loaded (urls_of loaded)
    (option_map novel_name first) (option_map author first).

(** The whole run, with [fuel] turns for the loop over next-chapter links:
    the chapters in the order in which they are merged into one file,
    [None] when that loop is still running.  [stored] and [last_url] are
    what the progress file holds; they count only when [resume] is set, and
    the chapters are then put in order as [load_chapters] does.  The
    semaphore that bounds the fetches in flight is taken to let each of
    them through in turn, as it does for every positive [concurrency]. *)
Definition crawl_multiple_chapters (fuel : nat) (url : pystr)
    (num_chapters : Z) (is_chapter resume : bool)
    (stored : list stored_chapter) (last_url : option pystr)
  : option (list chapter_data) :=
  let loaded :=
    if resume then List.map stored_data (load_chapters stored) else [] in
  let '(novel_info, total_chapters) :=
    if is_chapter then chapter_entry url else listing_entry url in
  let crawled :=
    match entry_mode total_chapters with
    | IndexDriven =>
        let novel_name :=
          or_else (option_map idx_novel_name novel_info)
            (option_map novel_name (head loaded)) in
        let author :=
          or_else (option_map idx_author novel_info)
            (option_map author (head loaded)) in
        Some (crawl_listed num_chapters total_chapters loaded novel_name author)
    | LinkedList =>
        option_map chapters_data
          (walk fuel (walk_budget num_chapters)
             (walk_start url last_url resume loaded))
    end in
  (* the chapters are sorted before the merge and once more inside it *)
  option_map
    (fun data => process_and_sort_chapters (process_and_sort_chapters data))
    crawled.
End Orchestrator.

(** ** Sample data for the examples below *)

Definition intro_at_5 : chapter :=
  mk_chapter (py "Intro") (py "http://n.example/b/5.html").
Definition first_at_3 : chapter :=
  mk_chapter (py "第一章") (py "http://n.example/b/3.html").
Definition epilogue_at_million : chapter :=
  mk_chapter (py "Epilogue") (py "http://n.example/b/1000000.html").
Definition notes_unnumbered : chapter :=
  mk_chapter (py "Notes") (py "http://n.example/b/notes.html").
Definition thanks_unnumbered : chapter :=
  mk_chapter (py "Thanks") (py "http://n.example/b/thanks.html").
Definition first_at_big_id : chapter :=
  mk_chapter (py "第一章 风起") (py "http://n.example/b/10000001.html").
Definition second_at_big_id : chapter :=
  mk_chapter (py "第二章 云涌") (py "http://n.example/b/10000002.html").
Definition postscript_unnumbered : chapter :=
  mk_chapter (py "后记") (py "http://n.example/b/postscript.html").

(** A page of a sample site: its address, its markup and what the scans
    find in that markup. *)
Record sample_page := mk_page {
  pg_url : pystr;
  pg_html : pystr;
  pg_body : pystr;
  pg_title : option pystr;
  pg_next : option pystr;
  pg_links : list (pystr * pystr);
  pg_region : pystr
}.

Fixpoint page_at (pages : list sample_page) (u : pystr) : option sample_page :=
  match pages with
  | [] => None
  | p :: rest => if str_eqb (pg_url p) u then Some p else page_at rest u
  end.

Fixpoint page_of (pages : list sample_page) (html : pystr) : option sample_page :=
  match pages with
  | [] => None
  | p :: rest => if str_eqb (pg_html p) html then Some p else page_of rest html
  end.

(** A site that serves the given pages and fails on every other address.
    Links are absolute, so that joining returns the reference. *)
Definition site_of (pages : list sample_page) : Site := {|
  arun u := option_map pg_html (page_at pages u);
  urljoin _ ref := ref;
  body_text h := match page_of pages h with Some p => pg_body p | None => [] end;
  clean_content c := c;
  page_title h := match page_of pages h with Some p => pg_title p | None => None end;
  prev_href _ := None;
  next_href h := match page_of pages h with Some p => pg_next p | None => None end;
  index_href _ := None;
  meta_novel_name _ := None;
  meta_author _ := None;
  meta_category _ := None;
  listing_novel_name _ := s_unknown_novel;
  listing_author _ := s_unknown_author;
  chapter_region h :=
    match page_of pages h with Some p => pg_region p | None => [] end;
  find_links h :=
    match page_of pages h with
    | Some p => pg_links p
    | None => []
    end;
  remove_tags t := t;
  find_first_chapter_links _ := [];
  h1_title _ := None
|}.

Definition url_a : pystr := py "http://n.example/b/1.html".
Definition url_b : pystr := py "http://n.example/b/2.html".
Definition url_c : pystr := py "http://n.example/b/3.html".
Definition long_body : pystr := py "It was a dark and stormy night; the rain fell.".

Definition w_next_chapter : pystr := Eval vm_compute in py "下一章".

(** Three chapter pages whose next-chapter links form the cycle A, B, C, A.
    The link is the only one of each page, and no page has a region that
    looks like a chapter list. *)
Definition cyclic_site : Site :=
  site_of
    [mk_page url_a (py "<a>") long_body (Some (py "A")) (Some url_b)
       [(url_b, w_next_chapter)] [];
     mk_page url_b (py "<b>") long_body (Some (py "B")) (Some url_c)
       [(url_c, w_next_chapter)] [];
     mk_page url_c (py "<c>") long_body (Some (py "C")) (Some url_a)
       [(url_a, w_next_chapter)] []].

(** The states of the walk over the cycle: after A, after B, after C (back
    at A with three chapters), and the two that follow. *)
Definition state_after (budget : Z) (st : walk_state) : walk_state :=
  match walk_step (H := cyclic_site) budget st with
  | Continue st' => st'
  | Break st' => st'
  end.

Definition cycle_start : walk_state :=
  Eval vm_compute in walk_start url_a None false [].
Definition cycle_after_a : walk_state :=
  Eval vm_compute in state_after 999 cycle_start.
Definition cycle_after_b : walk_state :=
  Eval vm_compute in state_after 999 cycle_after_a.
Definition cycle_back_at_a : walk_state :=
  Eval vm_compute in state_after 999 cycle_after_b.
Definition cycle_again_at_b : walk_state :=
  Eval vm_compute in state_after 999 cycle_back_at_a.
Definition cycle_again_at_c : walk_state :=
  Eval vm_compute in state_after 999 cycle_again_at_b.

(** A site whose first chapter page has a body of five characters. *)
Definition thin_site : Site :=
  site_of
    [mk_page url_a (py "<a>") (py "short") (Some (py "A")) (Some url_b)
       [(url_b, w_next_chapter)] [];
     mk_page url_b (py "<b>") long_body (Some (py "B")) None [] []].

Definition url_listing : pystr := py "http://n.example/b/".


(** ** File names: [sanitize_filename] and the name [save_chapter] builds *)

(** The characters of the class of [invalid_chars]: backslash, slash, star,
    question mark, colon, double quote, less than, greater than, bar. *)
Definition invalid_chars : list Z := [92; 47; 42; 63; 58; 34; 60; 62; 124].

Definition is_invalid_char (c : Z) : bool := existsb (Z.eqb c) invalid_chars.

Definition c_underscore : Z := Eval vm_compute in ch "_".
Definition s_unknown : pystr := Eval vm_compute in py "unknown".
Definition s_dot_md : pystr := Eval vm_compute in py ".md".

(** [re.sub(invalid_chars, '_', filename)], and the word unknown for an
    empty name. *)
Definition sanitize_filename (filename : pystr) : pystr :=
  match filename with
  | [] => s_unknown
  | _ :: _ =>
      List.map (fun c => if is_invalid_char c then c_underscore else c) filename
  end.

Fixpoint uint_chars (u : Decimal.uint) : pystr :=
  match u with
  | Decimal.Nil => []
  | Decimal.D0 u' => 48 :: uint_chars u'
  | Decimal.D1 u' => 49 :: uint_chars u'
  | Decimal.D2 u' => 50 :: uint_chars u'
  | Decimal.D3 u' => 51 :: uint_chars u'
  | Decimal.D4 u' => 52 :: uint_chars u'
  | Decimal.D5 u' => 53 :: uint_chars u'
  | Decimal.D6 u' => 54 :: uint_chars u'
  | Decimal.D7 u' => 55 :: uint_chars u'
  | Decimal.D8 u' => 56 :: uint_chars u'
  | Decimal.D9 u' => 57 :: uint_chars u'
  end.

(** A natural number printed with the format [03d]: in decimal, with zeros
    in front up to three characters. *)
Definition format_03d (n : nat) : pystr :=
  let digits := uint_chars (Nat.to_uint n) in
  List.repeat 48 (3 - List.length digits) ++ digits.

(** The file name of a chapter in a directory that holds [existing]
    entries. *)
Definition chapter_filename (existing : nat) (title : pystr) : pystr :=
  format_03d (existing + 1) ++ [c_underscore] ++ sanitize_filename title
  ++ s_dot_md.

(** A listing page whose chapter region links the first chapter twice and
    the second once; the scan of the whole page finds the same links. *)
Definition listing_markup : pystr := py "<listing>".
Definition region_markup : pystr := py "<dl>".
Definition listing_links : list (pystr * pystr) :=
  [(url_a, py "第一章 A"); (url_a, py "第一章 A"); (url_b, py "第二章 B")].

Definition doubled_site : Site :=
  site_of
    [mk_page url_listing listing_markup [] None None listing_links region_markup;
     mk_page [] region_markup [] None None listing_links []].

(** * Properties *)

(** ** Sample runs *)

Example py_di_zhang : py "第1章" = [31532; 49; 31456].
Proof. reflexivity. Qed.

Example ecn_arabic : extract_chapter_number (py "第12章 风起") = Some 12.
Proof. vm_compute. reflexivity. Qed.
Example ecn_single : extract_chapter_number (py "第七章") = Some 7.
Proof. vm_compute. reflexivity. Qed.
Example ecn_teen : extract_chapter_number (py "第十三章") = Some 13.
Proof. vm_compute. reflexivity. Qed.
Example ecn_complex : extract_chapter_number (py "第二十一章") = Some 999.
Proof. vm_compute. reflexivity. Qed.
Example ecn_none : extract_chapter_number (py "Intro") = None.
Proof. vm_compute. reflexivity. Qed.
Example ecn_jie : extract_chapter_number (py "卷一 34节") = Some 34.
Proof. vm_compute. reflexivity. Qed.
Example ecn_lead1 : extract_chapter_number (py "1. xxxx") = Some 1.
Proof. vm_compute. reflexivity. Qed.
Example ecn_lead12 : extract_chapter_number (py "12. Title") = Some 2.
Proof. vm_compute. reflexivity. Qed.

Example order_numeric_dominance :
  process_and_sort_chapters
    [mk_chapter (py "Intro") (py "http://n.example/b/5.html");
     mk_chapter (py "第一章") (py "http://n.example/b/3.html")]
  = [mk_chapter (py "第一章") (py "http://n.example/b/3.html");
     mk_chapter (py "Intro") (py "http://n.example/b/5.html")].
Proof. vm_compute. reflexivity. Qed.

Example classify_chapter :
  is_likely_chapter_link (py " 第3章 夜 ") (py "a.html") = (true, OrdinalMarker).
Proof. vm_compute. reflexivity. Qed.
Example classify_numeric_path :
  is_likely_chapter_link (py "夜雨") (py "/b/17.html") = (true, NumericPath).
Proof. vm_compute. reflexivity. Qed.
Example classify_blocked :
  is_likely_chapter_link (py "第1章 登录") (py "/b/1.html")
  = (false, NonChapterKeyword).
Proof. vm_compute. reflexivity. Qed.

Example directory_index : is_directory_page (py "http://n.example/b/") = true.
Proof. vm_compute. reflexivity. Qed.
Example directory_named : is_directory_page (py "http://n.example/b/index.html") = true.
Proof. vm_compute. reflexivity. Qed.
Example directory_chapter : is_directory_page (py "http://n.example/b/17.html") = false.
Proof. vm_compute. reflexivity. Qed.

(** ** The order on keys *)

#[local] Arguments key_ltb : simpl never.
#[local] Arguments key_of : simpl never.

Ltac key_cases :=
  repeat match goal with
         | |- context [Z.eqb ?a ?b] => destruct (Z.eqb_spec a b)
         | |- context [Z.ltb ?a ?b] => destruct (Z.ltb_spec a b)
         | H : context [Z.eqb ?a ?b] |- _ => destruct (Z.eqb_spec a b)
         | H : context [Z.ltb ?a ?b] |- _ => destruct (Z.ltb_spec a b)
         end.

Lemma key_ltb_lex (a b : sort_key) : key_ltb a b = true <-> lex_lt a b.
Proof.
  destruct a as [[[[a1 a2] a3] a4] a5], b as [[[[b1 b2] b3] b4] b5].
  unfold key_ltb, lex_lt. split.
  - intros Hlt. key_cases; simpl in Hlt; try discriminate; lia.
  - intros Hlt. key_cases; simpl; try reflexivity; lia.
Qed.

Lemma key_geb_lex (a b : sort_key) : key_ltb b a = false <-> lex_le a b.
Proof.
  destruct a as [[[[a1 a2] a3] a4] a5], b as [[[[b1 b2] b3] b4] b5].
  unfold key_ltb, lex_le, lex_lt. split.
  - intros Hge. destruct (Z.eq_dec a5 b5);
      key_cases; simpl in Hge; try discriminate;
      first [ left; lia | right; repeat f_equal; lia ].
  - intros [Hlt | Heq].
    + key_cases; simpl; try reflexivity; lia.
    + injection Heq as -> -> -> -> ->. rewrite !Z.eqb_refl. simpl.
      apply Z.ltb_irrefl.
Qed.

Lemma lex_le_trans (a b c : sort_key) : lex_le a b -> lex_le b c -> lex_le a c.
Proof.
  destruct a as [[[[a1 a2] a3] a4] a5], b as [[[[b1 b2] b3] b4] b5],
           c as [[[[c1 c2] c3] c4] c5].
  unfold lex_le, lex_lt.
  intros [Hab | Hab] [Hbc | Hbc];
    try (injection Hab as -> -> -> -> ->); try (injection Hbc as -> -> -> -> ->);
    try (left; lia); try (now left); now right.
Qed.

Lemma lex_lt_not_le (a b : sort_key) : lex_lt a b -> ~ lex_le b a.
Proof.
  destruct a as [[[[a1 a2] a3] a4] a5], b as [[[[b1 b2] b3] b4] b5].
  unfold lex_le, lex_lt. intros Hlt [Hba | Heq].
  - lia.
  - injection Heq as -> -> -> -> ->. lia.
Qed.



(** ** Sorted lists *)

Section SortedLists.
Context {T : Type} (R : T -> T -> Prop).
Hypothesis R_refl : forall z, R z z.

(** In a sorted list an element that must come strictly first does. *)
Lemma sorted_before (l : list T) (x y : T) :
  StronglySorted R l -> In x l -> In y l -> ~ R y x ->
  exists l1 l2 l3, l = l1 ++ x :: l2 ++ y :: l3.
Proof.
  intros Hs. induction Hs as [| a l Hs IH Hall]; intros Hx Hy Hn.
  - destruct Hx.
  - rewrite List.Forall_forall in Hall. destruct Hx as [-> | Hx].
    + destruct Hy as [-> | Hy].
      * exfalso. apply Hn, R_refl.
      * destruct (in_split _ _ Hy) as (l2 & l3 & ->).
        exists [], l2, l3. reflexivity.
    + destruct Hy as [-> | Hy].
      * exfalso. apply Hn. apply Hall. exact Hx.
      * destruct (IH Hx Hy Hn) as (l1 & l2 & l3 & ->).
        exists (a :: l1), l2, l3. reflexivity.
Qed.
End SortedLists.

Section SortedUnique.
Context {T : Type} (R : T -> T -> Prop).
Hypothesis R_refl : forall z, R z z.

End SortedUnique.

Lemma sorted_map {T U : Type} (R : T -> T -> Prop) (S : U -> U -> Prop)
    (f : T -> U) (l : list T) :
  (forall x y, In x l -> In y l -> R x y -> S (f x) (f y)) ->
  StronglySorted R l -> StronglySorted S (List.map f l).
Proof.
  intros Hf Hs. induction Hs as [| a t Ht IH Ha]; simpl.
  - constructor.
  - constructor.
    + apply IH. intros x y Hx Hy. apply Hf; now right.
    + rewrite List.Forall_forall in *. intros u Hu.
      apply in_map_iff in Hu as (x & <- & Hx).
      apply Hf; [now left | now right | now apply Ha].
Qed.

(** ** The sort *)

Section SortFacts.
Context {A : Type} `{ChapterLike A}.

Lemma ascending_refl (x : chapter_info A) : ascending x x.
Proof. now right. Qed.

Lemma insert_sorted_perm (x : chapter_info A) (l : list (chapter_info A)) :
  Permutation (insert_sorted x l) (x :: l).
Proof.
  induction l as [| y l IH]; simpl.
  - apply Permutation_refl.
  - destruct (key_ltb (key_of y) (key_of x)).
    + eapply Permutation_trans; [apply perm_skip, IH | apply perm_swap].
    + apply Permutation_refl.
Qed.

Lemma sort_by_key_perm (l : list (chapter_info A)) :
  Permutation (sort_by_key l) l.
Proof.
  induction l as [| x l IH]; simpl.
  - apply Permutation_refl.
  - eapply Permutation_trans; [apply insert_sorted_perm | now apply perm_skip].
Qed.

Lemma insert_sorted_sorted (x : chapter_info A) (l : list (chapter_info A)) :
  StronglySorted ascending l -> StronglySorted ascending (insert_sorted x l).
Proof.
  intros Hs. induction Hs as [| y l Hs IH Hy]; simpl.
  - repeat constructor.
  - destruct (key_ltb (key_of y) (key_of x)) eqn:Hyx.
    + constructor; [exact IH |].
      rewrite List.Forall_forall in *. intros z Hz.
      eapply Permutation_in in Hz; [| apply insert_sorted_perm].
      destruct Hz as [<- | Hz]; [| now apply Hy].
      left. now apply key_ltb_lex.
    + apply key_geb_lex in Hyx.
      constructor; [constructor; assumption |].
      constructor; [exact Hyx |].
      rewrite List.Forall_forall in *. intros z Hz.
      eapply lex_le_trans; [exact Hyx | now apply Hy].
Qed.

Lemma sort_by_key_sorted (l : list (chapter_info A)) :
  StronglySorted ascending (sort_by_key l).
Proof.
  induction l as [| x l IH]; simpl; [constructor |].
  now apply insert_sorted_sorted.
Qed.

(** A list that is already ascending is left as it is. *)
Lemma sort_by_key_fixed (l : list (chapter_info A)) :
  StronglySorted ascending l -> sort_by_key l = l.
Proof.
  intros Hs. induction Hs as [| x l Hs IH Hx]; simpl; [reflexivity |].
  rewrite IH. destruct l as [| y l]; simpl; [reflexivity |].
  apply Forall_inv in Hx. apply key_geb_lex in Hx. now rewrite Hx.
Qed.

(** *** Entries and the chapters they come from *)

Lemma original_enumerate (i : nat) (l : list A) :
  List.map original (enumerate_from i l) = l.
Proof.
  revert i. induction l as [| c l IH]; intros i; simpl; [reflexivity |].
  now rewrite IH.
Qed.

Lemma in_enumerate (i : nat) (l : list A) (x : chapter_info A) :
  In x (enumerate_from i l) ->
  exists j c, x = analyse j c /\ (i <= j)%nat /\ In c l.
Proof.
  revert i. induction l as [| c l IH]; intros i; simpl; [intros [] |].
  intros [<- | Hx].
  - exists i, c. repeat split; [lia | now left].
  - destruct (IH _ Hx) as (j & d & -> & Hj & Hd).
    exists j, d. repeat split; [lia | now right].
Qed.

Lemma key_of_analyse (j : nat) (c : A) :
  key_of (analyse j c)
  = let '(k1, k2, k3, k4) := rank_of c in (k1, k2, k3, k4, Z.of_nat j).
Proof. reflexivity. Qed.

Lemma ascending_rank (i j : nat) (c d : A) :
  ascending (analyse i c) (analyse j d) -> rank_le (rank_of c) (rank_of d).
Proof.
  unfold ascending. rewrite !key_of_analyse.
  destruct (rank_of c) as [[[a1 a2] a3] a4], (rank_of d) as [[[b1 b2] b3] b4].
  unfold lex_le, lex_lt, rank_le. intros [Hlt | Heq].
  - lia.
  - injection Heq as -> -> -> -> _. lia.
Qed.

Lemma rank_ascending (i j : nat) (c d : A) :
  rank_le (rank_of c) (rank_of d) -> (i < j)%nat ->
  ascending (analyse i c) (analyse j d).
Proof.
  unfold ascending. rewrite !key_of_analyse.
  destruct (rank_of c) as [[[a1 a2] a3] a4], (rank_of d) as [[[b1 b2] b3] b4].
  unfold lex_le, lex_lt, rank_le. intros Hle Hij. left. lia.
Qed.

Lemma sorted_infos_perm (l : list A) :
  Permutation (sorted_infos l) (enumerate_from 0 l).
Proof. apply sort_by_key_perm. Qed.

Lemma process_as_map (l : list A) :
  process_and_sort_chapters l = List.map original (sorted_infos l).
Proof. destruct l; reflexivity. Qed.

Lemma process_perm (l : list A) : Permutation (process_and_sort_chapters l) l.
Proof.
  rewrite process_as_map.
  rewrite <- (original_enumerate 0 l) at 2.
  apply Permutation_map, sorted_infos_perm.
Qed.

Lemma process_ranked (l : list A) :
  StronglySorted ranked (process_and_sort_chapters l).
Proof.
  rewrite process_as_map.
  apply (sorted_map ascending); [| apply sort_by_key_sorted].
  intros x y Hx Hy Hxy.
  eapply Permutation_in in Hx; [| apply sorted_infos_perm].
  eapply Permutation_in in Hy; [| apply sorted_infos_perm].
  apply in_enumerate in Hx as (i & c & -> & _ & _).
  apply in_enumerate in Hy as (j & d & -> & _ & _).
  simpl. eapply ascending_rank, Hxy.
Qed.

Lemma enumerate_ascending (i : nat) (l : list A) :
  StronglySorted ranked l -> StronglySorted ascending (enumerate_from i l).
Proof.
  intros Hs. revert i. induction Hs as [| c l Hs IH Hc]; intros i; simpl.
  - constructor.
  - constructor; [apply IH |].
    rewrite List.Forall_forall in *. intros x Hx.
    apply in_enumerate in Hx as (j & d & -> & Hj & Hd).
    apply rank_ascending; [now apply Hc | lia].
Qed.
End SortFacts.

(** ** The ordering engine *)

(** The key the code sorts by: the entries come out ascending in the tuple
    (location ordinal, title ordinal, negated priority, special sequence,
    original position), compared component by component, where the code
    puts 999999 for an absent location or title ordinal; the entries are
    those of the input; and of two entries that both carry a location
    ordinal the one with the smaller ordinal comes first, whatever their
    titles. *)
Theorem sort_key_precedence {A : Type} `{ChapterLike A} (l : list A) :
  process_and_sort_chapters l = List.map original (sorted_infos l)
  /\ Permutation (sorted_infos l) (enumerate_from 0 l)
  /\ StronglySorted
       (fun x y =>
          lex_le (default 999999 (url_num x), default 999999 (chapter_num x),
                  - priority x, sequence x, Z.of_nat (original_index x))
                 (default 999999 (url_num y), default 999999 (chapter_num y),
                  - priority y, sequence y, Z.of_nat (original_index y)))
       (sorted_infos l)
  /\ (forall x y a b,
        In x (sorted_infos l) -> In y (sorted_infos l) ->
        url_num x = Some a -> url_num y = Some b -> a < b ->
        exists l1 l2 l3, sorted_infos l = l1 ++ x :: l2 ++ y :: l3).
Proof.
  split; [apply process_as_map |].
  split; [apply sorted_infos_perm |].
  split; [apply (sort_by_key_sorted (enumerate_from 0 l)) |].
  intros x y a b Hx Hy Ha Hb Hab.
  apply (sorted_before ascending ascending_refl); try assumption.
  - apply sort_by_key_sorted.
  - apply lex_lt_not_le. unfold key_of. rewrite Ha, Hb. simpl. left. exact Hab.
Qed.

(** The example of the specification: the entry at 3.html comes before the
    entry at 5.html although only the latter's title says nothing. *)
Lemma sort_key_precedence_witness :
  process_and_sort_chapters [intro_at_5; first_at_3] = [first_at_3; intro_at_5]
  /\ exists l1 l2 l3,
       sorted_infos [intro_at_5; first_at_3]
       = l1 ++ analyse 1%nat first_at_3 :: l2 ++ analyse 0%nat intro_at_5 :: l3.
Proof.
  split.
  - vm_compute. reflexivity.
  - apply (proj2 (proj2 (proj2 (sort_key_precedence [intro_at_5; first_at_3])))
             (analyse 1%nat first_at_3) (analyse 0%nat intro_at_5) 3 5).
    + vm_compute. left. reflexivity.
    + vm_compute. right. left. reflexivity.
    + vm_compute. reflexivity.
    + vm_compute. reflexivity.
    + lia.
Defined.

(** C1 on the code: an entry without a location ordinal is to come after
    every entry that has one, but the 999999 that stands for the absent
    ordinal is below the page numbers of many sites: an entry whose
    location ordinal is 1000000 is put after an entry that has none, and
    with page numbers of eight digits the postscript comes out in front of
    the first chapter. *)
Lemma absent_ordinal_is_not_infinite :
  process_and_sort_chapters [epilogue_at_million; notes_unnumbered]
  = [notes_unnumbered; epilogue_at_million]
  /\ ~ StronglySorted (fun x y => spec_precedes y x = false)
         (sorted_infos [epilogue_at_million; notes_unnumbered])
  /\ process_and_sort_chapters
       [first_at_big_id; second_at_big_id; postscript_unnumbered]
     = [postscript_unnumbered; first_at_big_id; second_at_big_id].
Proof.
  split; [vm_compute; reflexivity |]. split.
  - intros Hs. vm_compute in Hs. inversion Hs as [| ? ? _ Hall].
    apply Forall_inv in Hall. discriminate Hall.
  - vm_compute. reflexivity.
Qed.

(** C10: the output has the entries of the input, each as often, and so
    as many of them. *)
Theorem ordering_is_permutation {A : Type} `{ChapterLike A} (l : list A) :
  Permutation (process_and_sort_chapters l) l
  /\ List.length (process_and_sort_chapters l) = List.length l.
Proof.
  split; [apply process_perm |].
  apply Permutation_length, process_perm.
Qed.

(** C3: ordering an ordered list changes nothing. *)
Theorem ordering_idempotent {A : Type} `{ChapterLike A} (l : list A) :
  process_and_sort_chapters (process_and_sort_chapters l)
  = process_and_sort_chapters l.
Proof.
  rewrite (process_as_map (process_and_sort_chapters l)).
  unfold sorted_infos.
  rewrite sort_by_key_fixed.
  - apply original_enumerate.
  - apply enumerate_ascending, process_ranked.
Qed.




(** ** Strings *)

Lemma str_eqb_eq (a b : pystr) : str_eqb a b = true <-> a = b.
Proof.
  revert b. induction a as [| c a IH]; intros [| d b]; cbn [str_eqb];
    try (split; [discriminate | discriminate]); [tauto |].
  rewrite andb_true_iff, Z.eqb_eq, IH. split.
  - intros [-> ->]. reflexivity.
  - intros Heq. injection Heq as -> ->. tauto.
Qed.

Lemma startswith_prefix (s w : pystr) :
  startswith s w = true <-> exists b, s = w ++ b.
Proof.
  revert s. induction w as [| c w IH]; intros s; cbn [startswith].
  - destruct s; split; eauto.
  - destruct s as [| d s]; cbn [startswith].
    + split; [discriminate | intros [b Hb]; discriminate].
    + rewrite andb_true_iff, Z.eqb_eq, IH. split.
      * intros [-> [b ->]]. eauto.
      * intros [b Hb]. injection Hb as -> ->. eauto.
Qed.

Lemma contains_infix (w s : pystr) :
  contains w s = true <-> exists a b, s = a ++ w ++ b.
Proof.
  induction s as [| d s IH].
  - cbn [contains]. rewrite orb_false_r, startswith_prefix. split.
    + intros [b Hb]. exists [], b. exact Hb.
    + intros (a & b & Hab). destruct a; [eauto |]. discriminate.
  - cbn [contains]. rewrite orb_true_iff, startswith_prefix, IH. split.
    + intros [[b Hb] | (a & b & ->)].
      * exists [], b. exact Hb.
      * exists (d :: a), b. reflexivity.
    + intros (a & b & Hab). destruct a as [| x a].
      * left. exists b. exact Hab.
      * right. injection Hab as -> ->. eauto.
Qed.

Lemma endswith_suffix (s w : pystr) :
  endswith s w = true <-> exists a, s = a ++ w.
Proof.
  unfold endswith. rewrite startswith_prefix. split.
  - intros [b Hb]. exists (rev b).
    rewrite <- (rev_involutive s), Hb, rev_app_distr, rev_involutive.
    reflexivity.
  - intros [a ->]. exists (rev a). apply rev_app_distr.
Qed.

Lemma lstrip_app (a t : pystr) (c : Z) :
  is_space c = false -> lstrip (a ++ c :: t) = lstrip a ++ c :: t.
Proof.
  intros Hc. induction a as [| x a IH]; simpl.
  - now rewrite Hc.
  - destruct (is_space x); [exact IH | reflexivity].
Qed.

(** [strip] keeps every occurrence of a word that neither starts nor ends
    with white space. *)
Lemma strip_keeps_infix (c d : Z) (m s : pystr) :
  is_space c = false -> is_space d = false ->
  (exists a b, s = a ++ (c :: m ++ [d]) ++ b) ->
  exists a b, strip s = a ++ (c :: m ++ [d]) ++ b.
Proof.
  intros Hc Hd (a & b & ->). unfold strip, rstrip.
  simpl. rewrite (lstrip_app a _ c Hc).
  replace (lstrip a ++ c :: (m ++ [d]) ++ b)
    with ((lstrip a ++ c :: m) ++ d :: b)
    by (rewrite <- !app_assoc; reflexivity).
  rewrite rev_app_distr. simpl rev at 1.
  rewrite <- app_assoc. simpl.
  rewrite (lstrip_app (rev b) _ d Hd).
  rewrite rev_app_distr. simpl. rewrite rev_involutive.
  exists (lstrip a), (rev (lstrip (rev b))).
  rewrite <- !app_assoc. reflexivity.
Qed.

Lemma span_app (p : Z -> bool) (s : pystr) :
  s = fst (span p s) ++ snd (span p s)
  /\ forallb p (fst (span p s)) = true
  /\ match snd (span p s) with [] => True | c :: _ => p c = false end.
Proof.
  induction s as [| c s IH]; simpl; [auto |].
  destruct (p c) eqn:Hc.
  - destruct (span p s) as [a b]. simpl in *.
    destruct IH as (Hs & Ha & Hb). rewrite Hc, Ha.
    repeat split; [now rewrite <- Hs | exact Hb].
  - simpl. rewrite Hc. auto.
Qed.

Lemma span_run (p : Z -> bool) (d rest : pystr) :
  forallb p d = true ->
  match rest with [] => True | c :: _ => p c = false end ->
  span p (d ++ rest) = (d, rest).
Proof.
  intros Hd Hrest. induction d as [| c d IH]; simpl in *.
  - destruct rest as [| c rest]; [reflexivity |]. simpl. now rewrite Hrest.
  - apply andb_true_iff in Hd as [Hc Hd]. rewrite Hc, (IH Hd). reflexivity.
Qed.

(** ** The pattern of a numeric page name *)

Lemma search_numeric_html_sound (s g : pystr) :
  search_numeric_html s = Some g ->
  g <> [] /\ forallb is_digit g = true
  /\ exists pre, s = pre ++ c_slash :: g ++ s_dot_html
                 \/ s = pre ++ c_slash :: g ++ s_dot_html_nl.
Proof.
  induction s as [| c s IH]; cbn [search_numeric_html]; [discriminate |].
  assert (Hlater : search_numeric_html s = Some g ->
                   g <> [] /\ forallb is_digit g = true
                   /\ exists pre, c :: s = pre ++ c_slash :: g ++ s_dot_html
                        \/ c :: s = pre ++ c_slash :: g ++ s_dot_html_nl).
  { intros Hs. destruct (IH Hs) as (Hg & Hd & pre & Hpre).
    repeat split; [exact Hg | exact Hd |].
    exists (c :: pre). destruct Hpre as [-> | ->]; [left | right]; reflexivity. }
  destruct (Z.eqb_spec c c_slash) as [-> | _]; [| exact Hlater].
  destruct (span_app is_digit s) as (Hs & Hrun & _).
  destruct (span is_digit s) as [run rest]. simpl in Hs, Hrun.
  destruct run as [| r run]; [exact Hlater |].
  destruct (str_eqb rest s_dot_html || str_eqb rest s_dot_html_nl) eqn:Hrest;
    [| exact Hlater].
  intros Hg. injection Hg as <-.
  repeat split; [discriminate | exact Hrun |].
  exists []. apply orb_true_iff in Hrest as [Hr | Hr];
    apply str_eqb_eq in Hr; subst rest; [left | right]; now rewrite Hs.
Qed.

Lemma search_numeric_html_complete (pre d : pystr) :
  d <> [] -> forallb is_digit d = true ->
  matched (search_numeric_html (pre ++ c_slash :: d ++ s_dot_html)) = true.
Proof.
  intros Hd Hdigits. induction pre as [| c pre IH].
  - cbn [app search_numeric_html]. rewrite Z.eqb_refl.
    rewrite (span_run is_digit d s_dot_html Hdigits) by reflexivity.
    destruct d as [| r d]; [congruence |].
    replace (str_eqb s_dot_html s_dot_html) with true by reflexivity.
    reflexivity.
  - cbn [app search_numeric_html].
    destruct (c =? c_slash); [| exact IH].
    destruct (span is_digit (pre ++ c_slash :: d ++ s_dot_html)) as [[| r run] rest];
      [exact IH |].
    destruct (str_eqb rest s_dot_html || str_eqb rest s_dot_html_nl);
      [reflexivity | exact IH].
Qed.

(** ** The link classifier *)

Lemma blocklist_words (w : pystr) :
  In w blocklist ->
  exists c d, w = [c; d] /\ is_space c = false /\ is_space d = false.
Proof.
  unfold blocklist. simpl.
  intros Hw. repeat destruct Hw as [<- | Hw]; try contradiction;
    eexists _, _; (split; [reflexivity | split; reflexivity]).
Qed.

(** C6: a link whose text holds a word of the block list is not a chapter
    link, whatever else its text and its target look like: the block list is
    the first rule and the first rule that applies decides. *)
Theorem blocklist_rejects_first (title href w : pystr) :
  In w blocklist ->
  (exists a b, title = a ++ w ++ b) ->
  is_likely_chapter_link title href = (false, NonChapterKeyword).
Proof.
  intros Hw Hin.
  destruct (blocklist_words w Hw) as (c & d & -> & Hc & Hd).
  apply (strip_keeps_infix c d [] title Hc Hd) in Hin.
  apply contains_infix in Hin.
  unfold is_likely_chapter_link.
  replace (existsb (fun x => contains x (strip title)) blocklist) with true;
    [reflexivity |].
  symmetry. apply existsb_exists. exists [c; d]. split; assumption.
Qed.

(** A text that names a chapter and points at a numeric page, and still is
    rejected for the word 登录 in it. *)
Lemma blocklist_rejects_first_witness :
  is_likely_chapter_link (py "第1章 登录") (py "/b/1.html")
  = (false, NonChapterKeyword)
  /\ search_ordinal_marker (strip (py "第1章 登录")) = true
  /\ matched (search_numeric_html (py "/b/1.html")) = true.
Proof.
  split; [| split; vm_compute; reflexivity].
  apply (blocklist_rejects_first _ _ (py "登录")).
  - vm_compute. left. reflexivity.
  - exists (py "第1章 "), []. vm_compute. reflexivity.
Defined.

(** ** The walk along next-chapter links *)

Example cyclic_first_step :
  match walk_step (H := cyclic_site) 999
          (walk_start url_a None false []) with
  | Continue st => current_url st = url_b /\ count st = 1
  | Break _ => False
  end.
Proof. vm_compute. split; reflexivity. Qed.

Section WalkFacts.
Context `{Site}.

(** Three states that the loop passes through in turn, none of which
    leaves it: the loop is still running after any number of turns. *)
Lemma walk_three_cycle (budget : Z) (s1 s2 s3 : walk_state) :
  walk_step budget s1 = Continue s2 ->
  walk_step budget s2 = Continue s3 ->
  walk_step budget s3 = Continue s1 ->
  forall fuel, walk fuel budget s1 = None
               /\ walk fuel budget s2 = None
               /\ walk fuel budget s3 = None.
Proof.
  intros H1 H2 H3 fuel. induction fuel as [| fuel (IH1 & IH2 & IH3)].
  - repeat split.
  - cbn [walk]. rewrite H1, H2, H3. repeat split; assumption.
Qed.

Lemma walk_continue (fuel : nat) (budget : Z) (st st' : walk_state) :
  walk_step budget st = Continue st' ->
  walk (S fuel) budget st = walk fuel budget st'.
Proof. intros Hstep. cbn [walk]. now rewrite Hstep. Qed.
End WalkFacts.

Lemma cycle_step_1 :
  walk_step (H := cyclic_site) 999 cycle_start = Continue cycle_after_a.
Proof. vm_compute. reflexivity. Qed.
Lemma cycle_step_2 :
  walk_step (H := cyclic_site) 999 cycle_after_a = Continue cycle_after_b.
Proof. vm_compute. reflexivity. Qed.
Lemma cycle_step_3 :
  walk_step (H := cyclic_site) 999 cycle_after_b = Continue cycle_back_at_a.
Proof. vm_compute. reflexivity. Qed.
Lemma cycle_step_4 :
  walk_step (H := cyclic_site) 999 cycle_back_at_a = Continue cycle_again_at_b.
Proof. vm_compute. reflexivity. Qed.
Lemma cycle_step_5 :
  walk_step (H := cyclic_site) 999 cycle_again_at_b = Continue cycle_again_at_c.
Proof. vm_compute. reflexivity. Qed.
Lemma cycle_step_6 :
  walk_step (H := cyclic_site) 999 cycle_again_at_c = Continue cycle_back_at_a.
Proof. vm_compute. reflexivity. Qed.

(** C5 on the code: on the chain A, B, C, A with no chapter budget given,
    A, B and C are fetched once each, after which the loop follows the
    stored links of the chapters it already has, round and round: it has
    not ended after any number of turns, and neither has the run that was
    started at A. *)
Theorem cyclic_chain_walk_never_ends (fuel : nat) :
  walk (H := cyclic_site) fuel (walk_budget 0)
    (walk_start url_a None false []) = None
  /\ crawl_multiple_chapters (H := cyclic_site) fuel url_a 0 false false [] None
     = None
  /\ current_url cycle_back_at_a = url_a
  /\ count cycle_back_at_a = 3
  /\ List.map cd_url (chapters_data cycle_back_at_a) = [url_a; url_b; url_c].
Proof.
  assert (Hwalk : walk (H := cyclic_site) fuel (walk_budget 0)
                    (walk_start url_a None false []) = None).
  { change (walk_budget 0) with 999.
    change (walk_start url_a None false []) with cycle_start.
    destruct fuel as [| fuel]; [reflexivity |].
    rewrite (walk_continue _ _ _ _ cycle_step_1).
    destruct fuel as [| fuel]; [reflexivity |].
    rewrite (walk_continue _ _ _ _ cycle_step_2).
    destruct fuel as [| fuel]; [reflexivity |].
    rewrite (walk_continue _ _ _ _ cycle_step_3).
    exact (proj1 (walk_three_cycle 999 _ _ _ cycle_step_4 cycle_step_5
                    cycle_step_6 fuel)). }
  split; [exact Hwalk |].
  split; [| repeat split; vm_compute; reflexivity].
  unfold crawl_multiple_chapters.
  replace (listing_entry (H := cyclic_site) url_a)
    with (@None novel_index, @nil chapter)
    by (vm_compute; reflexivity).
  cbn [entry_mode]. now rewrite Hwalk.
Qed.

(** ** Directory pages *)

Lemma last_char (a b : pystr) (x y : Z) : a ++ [x] = b ++ [y] -> x = y.
Proof. intros Heq. now apply app_inj_tail in Heq. Qed.

Lemma numeric_html_shape (pre d : pystr) :
  pre ++ c_slash :: d ++ s_dot_html
  = (pre ++ c_slash :: d ++ [46; 104; 116; 109]) ++ [108].
Proof.
  unfold s_dot_html. rewrite <- !app_assoc. simpl.
  rewrite <- !app_assoc. reflexivity.
Qed.

Lemma is_directory_page_false (url : pystr) :
  is_directory_page url = false
  <-> exists pre d, d <> [] /\ forallb is_digit d = true
                    /\ url = pre ++ [c_slash] ++ d ++ s_dot_html.
Proof.
  unfold is_directory_page. split.
  - destruct (endswith url [c_slash]); [discriminate |].
    destruct (endswith url s_dot_html) eqn:Hhtml; [| discriminate].
    cbn [orb negb].
    destruct (search_numeric_html url) as [g |] eqn:Hg; [| discriminate].
    intros _. apply endswith_suffix in Hhtml as [a Ha].
    destruct (search_numeric_html_sound _ _ Hg) as (Hne & Hdig & pre & [Hu | Hu]).
    + exists pre, g. repeat split; assumption.
    + exfalso. rewrite Hu in Ha.
      change s_dot_html_nl with ([46; 104; 116; 109; 108] ++ [10]) in Ha.
      change s_dot_html with ([46; 104; 116; 109] ++ [108]) in Ha.
      change (pre ++ c_slash :: g ++ [46; 104; 116; 109; 108] ++ [10])
        with (pre ++ (c_slash :: g) ++ [46; 104; 116; 109; 108] ++ [10]) in Ha.
      rewrite !app_assoc in Ha. apply last_char in Ha. discriminate Ha.
  - intros (pre & d & Hne & Hdig & ->). cbn [app].
    assert (Hslash : endswith (pre ++ c_slash :: d ++ s_dot_html) [c_slash] = false).
    { destruct (endswith _ [c_slash]) eqn:He; [| reflexivity].
      apply endswith_suffix in He as [a Ha].
      rewrite numeric_html_shape in Ha. apply last_char in Ha. discriminate Ha. }
    assert (Hhtml : endswith (pre ++ c_slash :: d ++ s_dot_html) s_dot_html = true).
    { apply endswith_suffix. exists (pre ++ c_slash :: d).
      rewrite <- app_assoc. reflexivity. }
    rewrite Hslash, Hhtml. cbn [orb negb].
    pose proof (search_numeric_html_complete pre d Hne Hdig) as Hm.
    destruct (search_numeric_html (pre ++ c_slash :: d ++ s_dot_html));
      [reflexivity | discriminate Hm].
Qed.

(** C9: a url is taken for a chapter page exactly when it ends in a slash,
    one or more digits and [.html]; every other url is taken for a
    directory page; and a next-chapter link to a directory page ends the
    walk with the chapter just fetched kept. *)
Theorem directory_page_iff_not_numeric_html `{Site} :
  (forall url,
     is_directory_page url = false
     <-> exists pre d, d <> [] /\ forallb is_digit d = true
                       /\ url = pre ++ [c_slash] ++ d ++ s_dot_html)
  /\ (forall url,
        (forall pre d, d <> [] -> forallb is_digit d = true ->
                       url <> pre ++ [c_slash] ++ d ++ s_dot_html) ->
        is_directory_page url = true)
  /\ (forall budget st chapter,
        count st < budget ->
        current_url st ∉ crawled_urls st ->
        crawl_chapter (current_url st) (walk_novel_name st) (walk_author st)
        = Some chapter ->
        nonempty (next_url chapter) = true ->
        next_url chapter <> current_url st ->
        is_directory_page (next_url chapter) = true ->
        exists st', walk_step budget st = Break st'
                    /\ chapters_data st' = chapters_data st ++ [chapter]).
Proof.
  split; [exact is_directory_page_false |].
  split.
  - intros url Hnot. destruct (is_directory_page url) eqn:Hd; [reflexivity |].
    apply is_directory_page_false in Hd as (pre & d & Hne & Hdig & Hu).
    exfalso. exact (Hnot pre d Hne Hdig Hu).
  - intros budget st chapter Hcount Hnew Hfetch Hnext Hnoself Hdir.
    unfold walk_step.
    apply Z.ltb_lt in Hcount. rewrite Hcount.
    rewrite bool_decide_eq_false_2 by exact Hnew.
    rewrite Hfetch, Hnext, Hdir. cbn [negb orb].
    destruct (str_eqb (next_url chapter) (current_url st)) eqn:Heq.
    + apply str_eqb_eq in Heq. contradiction.
    + eexists. split; reflexivity.
Qed.

(** ** Chapters without a body *)

Lemma lstrip_length (s : pystr) : (List.length (lstrip s) <= List.length s)%nat.
Proof.
  induction s as [| c s IH]; simpl; [lia |].
  destruct (is_space c); simpl; lia.
Qed.

Lemma strip_length (s : pystr) : len (strip s) <= len s.
Proof.
  unfold len, strip, rstrip. apply inj_le.
  rewrite length_rev.
  etransitivity; [apply lstrip_length |].
  rewrite length_rev. apply lstrip_length.
Qed.

Lemma successes_app (r1 r2 : list (option chapter_data)) :
  successes (r1 ++ r2) = successes r1 ++ successes r2.
Proof.
  induction r1 as [| [r |] r1 IH]; simpl; [reflexivity | | exact IH].
  now rewrite IH.
Qed.

Lemma successes_in (r : chapter_data) (results : list (option chapter_data)) :
  In (Some r) results -> In r (successes results).
Proof.
  induction results as [| [r' |] results IH]; cbn [successes].
  - intros [].
  - intros [Heq | Hin]; [injection Heq as ->; now left | right; now apply IH].
  - intros [Heq | Hin]; [discriminate | now apply IH].
Qed.

Section BodyFacts.
Context `{Site}.

Lemma crawl_chapter_short (chapter_url html : pystr)
    (novel_name author : option pystr) :
  arun chapter_url = Some html ->
  len (body_text html) < MIN_CONTENT_LENGTH ->
  crawl_chapter chapter_url novel_name author = None.
Proof.
  intros Hfetch Hshort. unfold crawl_chapter. rewrite Hfetch.
  pose proof (strip_length (body_text html)) as Hstrip.
  replace (len (strip (body_text html)) <? MIN_CONTENT_LENGTH) with true
    by (symmetry; apply Z.ltb_lt; lia).
  now rewrite orb_true_r.
Qed.

Lemma crawl_listed_unbounded (total : list chapter) (data : list chapter_data)
    (novel_name author : option pystr) :
  crawl_listed 0 total data novel_name author
  = data ++ successes
              (List.map (crawl_chapter_with_semaphore (urls_of data)
                           novel_name author)
                 (List.filter
                    (fun c => negb (bool_decide (url c ∈ urls_of data)))
                    total)).
Proof.
  unfold crawl_listed, chapters_to_crawl. cbn [Z.ltb Z.compare].
  now rewrite firstn_all.
Qed.

(** Every listed chapter within the budget that is not yet crawled and
    whose fetch succeeds has its record in the result, whatever happens to
    the other chapters. *)
Lemma crawl_listed_records (num_chapters : Z) (total : list chapter)
    (c : chapter) (data : list chapter_data)
    (novel_name author : option pystr) (r : chapter_data) :
  In c (firstn (chapters_to_crawl num_chapters total) total) ->
  url c ∉ urls_of data ->
  crawl_chapter (url c) novel_name author = Some r ->
  In r (crawl_listed num_chapters total data novel_name author).
Proof.
  intros Hc Hnew Hfetch. unfold crawl_listed.
  apply in_or_app. right. apply successes_in.
  apply in_map_iff. exists c. split.
  - unfold crawl_chapter_with_semaphore.
    now rewrite bool_decide_eq_false_2 by exact Hnew.
  - apply filter_In. split; [exact Hc |].
    now rewrite bool_decide_eq_false_2 by exact Hnew.
Qed.
End BodyFacts.

(** C8: a fetched page whose body has fewer than 20 characters, none
    included, gives no record; the other chapters of the list are fetched
    and recorded as if it had not been listed, and every listed chapter
    within the budget whose fetch succeeds is recorded; the walk along
    next-chapter links ends at such a page with every record made so far
    kept. *)
Theorem short_body_yields_no_record `{Site} (chapter_url html : pystr) :
  arun chapter_url = Some html ->
  len (body_text html) < 20 ->
  (forall novel_name author,
     crawl_chapter chapter_url novel_name author = None)
  /\ (forall before after c data novel_name author,
        url c = chapter_url ->
        crawl_listed 0 (before ++ c :: after) data novel_name author
        = crawl_listed 0 (before ++ after) data novel_name author)
  /\ (forall num_chapters total c data novel_name author r,
        In c (firstn (chapters_to_crawl num_chapters total) total) ->
        url c ∉ urls_of data ->
        crawl_chapter (url c) novel_name author = Some r ->
        In r (crawl_listed num_chapters total data novel_name author))
  /\ (forall budget st,
        current_url st = chapter_url ->
        count st < budget ->
        chapter_url ∉ crawled_urls st ->
        walk 1 budget st = Some st).
Proof.
  intros Hfetch Hshort.
  assert (Hnone : forall novel_name author,
             crawl_chapter chapter_url novel_name author = None).
  { intros. now apply (crawl_chapter_short _ html). }
  split; [exact Hnone |]. split.
  - intros before after c data novel_name author Hc.
    rewrite !crawl_listed_unbounded. f_equal.
    rewrite !List.filter_app, !List.map_app, !successes_app. f_equal.
    cbn [List.filter].
    destruct (negb (bool_decide (url c ∈ urls_of data))); [| reflexivity].
    cbn [List.map successes].
    unfold crawl_chapter_with_semaphore at 1.
    rewrite Hc, Hnone. now destruct (bool_decide _).
  - split; [apply crawl_listed_records |].
    intros budget st Hcur Hcount Hnew.
    cbn [walk]. unfold walk_step.
    apply Z.ltb_lt in Hcount. rewrite Hcount, Hcur.
    rewrite bool_decide_eq_false_2 by exact Hnew.
    now rewrite Hnone.
Qed.

Lemma short_body_yields_no_record_witness :
  crawl_chapter (H := thin_site) url_a None None = None
  /\ crawl_listed (H := thin_site) 0
       [mk_chapter (py "A") url_a; mk_chapter (py "B") url_b] [] None None
     = crawl_listed (H := thin_site) 0 [mk_chapter (py "B") url_b] [] None None.
Proof.
  assert (Hfetch : arun (Site := thin_site) url_a = Some (py "<a>"))
    by (vm_compute; reflexivity).
  assert (Hshort : len (body_text (Site := thin_site) (py "<a>")) < 20)
    by (vm_compute; reflexivity).
  pose proof (short_body_yields_no_record (H := thin_site) url_a (py "<a>")
                Hfetch Hshort) as (Hnone & Hlisted & _ & _).
  split.
  - apply Hnone.
  - apply (Hlisted [] [mk_chapter (py "B") url_b] (mk_chapter (py "A") url_a)).
    reflexivity.
Defined.

Lemma directory_page_iff_not_numeric_html_witness :
  is_directory_page (py "http://n.example/b/17.html") = false.
Proof.
  apply (proj1 (directory_page_iff_not_numeric_html (H := thin_site))).
  exists (py "http://n.example/b"), (py "17").
  split; [discriminate |]. split; vm_compute; reflexivity.
Defined.

(** ** Listing pages without chapters *)




(** ** Chapter numbers in titles *)

(** The first chapter marker of a title is the one that is read. *)
Lemma search_di_zhang_first (pre X post : pystr) :
  ~ In c_di pre -> X <> [] -> forallb is_numeral_char X = true ->
  search_di_zhang (pre ++ c_di :: X ++ c_zhang :: post) = Some X.
Proof.
  intros Hpre HX Hnum. induction pre as [| c pre IH].
  - cbn [app search_di_zhang]. rewrite Z.eqb_refl.
    rewrite (span_run is_numeral_char X (c_zhang :: post) Hnum)
      by reflexivity.
    destruct X as [| x X]; [congruence |]. now rewrite Z.eqb_refl.
  - cbn [app search_di_zhang].
    destruct (Z.eqb_spec c c_di) as [-> | _].
    + exfalso. apply Hpre. now left.
    + apply IH. intros Hin. apply Hpre. now right.
Qed.

Lemma numeral_not_digit (c v : Z) :
  dict_get ch_num_map c = Some v -> is_digit c = false.
Proof.
  unfold ch_num_map. cbn [dict_get].
  repeat match goal with
         | |- context [c =? ?k] =>
             destruct (Z.eqb_spec c k) as [-> | _]; [intros _; reflexivity |]
         end.
  discriminate.
Qed.

(** What is read from the first marker 第X章 of a title: the value of X
    when X is written in digits, at most 4300 of them (with more, reading
    them raises, and nothing else makes the function raise here); the value
    of a single numeral; ten plus the numeral after 十; and 999 for every
    other X. *)
Lemma marker_number_cases (pre X post : pystr) :
  ~ In c_di pre -> X <> [] -> forallb is_numeral_char X = true ->
  let title := pre ++ c_di :: X ++ c_zhang :: post in
  let n := extract_chapter_number title in
  extract_chapter_number_raises title
  = forallb is_digit X && (4300 <? Z.of_nat (List.length X))
  /\ (forallb is_digit X = true -> Z.of_nat (List.length X) <= 4300 ->
      n = Some (int_of X))
  /\ (forall c v, X = [c] -> dict_get ch_num_map c = Some v -> n = Some v)
  /\ (forall c v, X = [c_shi; c] -> dict_get ch_num_map c = Some v ->
      n = Some (10 + v))
  /\ (forallb is_digit X = false ->
      (1 < List.length X)%nat ->
      (forall c v, X = [c_shi; c] -> dict_get ch_num_map c <> Some v) ->
      n = Some 999).
Proof.
  intros Hpre HX Hnum title n. subst title n.
  unfold extract_chapter_number, extract_chapter_number_raises.
  rewrite (search_di_zhang_first pre X post Hpre HX Hnum).
  split.
  { f_equal. unfold int_accepts, INT_MAX_STR_DIGITS.
    destruct (Z.leb_spec (Z.of_nat (List.length X)) 4300);
      destruct (Z.ltb_spec 4300 (Z.of_nat (List.length X)));
      try reflexivity; lia. }
  split; [intros -> _; reflexivity |]. split; [| split].
  - intros c v -> Hv. cbn [forallb]. rewrite (numeral_not_digit c v Hv).
    cbn [andb]. now rewrite Hv.
  - intros c v -> Hv. cbn [forallb].
    replace (is_digit c_shi) with false by reflexivity.
    cbn [andb]. now rewrite Z.eqb_refl, Hv.
  - intros -> Hlen Hteen.
    destruct X as [| c0 [| c1 [| c2 X]]]; cbn [List.length] in Hlen;
      try lia; [| reflexivity].
    destruct (Z.eqb_spec c0 c_shi) as [-> | _]; [| reflexivity].
    destruct (dict_get ch_num_map c1) as [v |] eqn:Hv; [| reflexivity].
    exfalso. exact (Hteen c1 v eq_refl Hv).
Qed.

(** The third pattern never reads more than one digit: its leading class
    takes the digits of the number as well and gives back only the last. *)
Lemma leading_number_one_digit (s g : pystr) :
  match_leading_number s = Some g -> exists d, g = [d].
Proof.
  induction s as [| c s IH]; cbn [match_leading_number]; [discriminate |].
  assert (Hhere : match_leading_number s = None ->
                  digits_then_sep (c :: s) = Some g -> exists d, g = [d]).
  { intros Hrest. unfold digits_then_sep. cbn [span].
    destruct (is_digit c) eqn:Hc; [| discriminate].
    destruct (span_app is_digit s) as (Hs & Hrun & Hafter).
    destruct (span is_digit s) as [run rest]. cbn [fst snd] in *.
    destruct rest as [| c2 rest]; [discriminate |].
    destruct (is_space c2 || (c2 =? c_dot) || (c2 =? c_colon)) eqn:Hsep;
      [| discriminate].
    intros Hg. injection Hg as <-.
    destruct run as [| r run]; [eauto |]. exfalso.
    (* the run goes on: the pattern matches one place later as well *)
    rewrite Hs in Hrest. cbn [app match_leading_number] in Hrest.
    assert (Hr : is_digit r = true).
    { cbn [forallb] in Hrun. now apply andb_true_iff in Hrun. }
    rewrite Hr, orb_true_r in Hrest. cbn [orb] in Hrest.
    destruct (match_leading_number (run ++ c2 :: rest)); [discriminate |].
    unfold digits_then_sep in Hrest.
    change (r :: run ++ c2 :: rest) with ((r :: run) ++ c2 :: rest) in Hrest.
    rewrite (span_run is_digit (r :: run) (c2 :: rest) Hrun Hafter) in Hrest.
    now rewrite Hsep in Hrest. }
  destruct (is_space c || is_digit c || (c =? c_dot)) eqn:Hclass.
  - destruct (match_leading_number s) as [g' |] eqn:Hrest.
    + intros Hg. injection Hg as <-. now apply IH.
    + now apply Hhere.
  - unfold digits_then_sep. cbn [span].
    apply orb_false_iff in Hclass as [Hclass _].
    apply orb_false_iff in Hclass as [_ Hc]. rewrite Hc. discriminate.
Qed.

Lemma digit_value_range (c v : Z) : digit_value c = Some v -> 0 <= v <= 9.
Proof.
  unfold digit_value. generalize decimal_zeros.
  intros zs. induction zs as [| z zs IH]; cbn [decimal_in]; [discriminate |].
  destruct ((z <=? c) && (c <? z + 10)) eqn:Hin; [| exact IH].
  apply andb_true_iff in Hin as [Hlo Hhi].
  apply Z.leb_le in Hlo. apply Z.ltb_lt in Hhi.
  intros Hv. injection Hv as <-. lia.
Qed.

(** A title whose number is found by the third pattern only, a number in
    front of the text, never gets an ordinal above 9. *)
Lemma leading_number_below_ten (title : pystr) (n : Z) :
  search_di_zhang title = None -> search_num_zhang title = None ->
  extract_chapter_number title = Some n -> 0 <= n <= 9.
Proof.
  intros Hdi Hnum. unfold extract_chapter_number. rewrite Hdi, Hnum.
  destruct (match_leading_number title) as [g |] eqn:Hg; [| discriminate].
  destruct (leading_number_one_digit _ _ Hg) as [d ->].
  intros Hn. injection Hn as <-. unfold int_of. cbn [fold_left].
  destruct (digit_value d) as [v |] eqn:Hv; cbn [default]; unfold id.
  - apply digit_value_range in Hv. lia.
  - lia.
Qed.

(** C7 on the code: the title 12. Title, whose number 12 is written in
    digits, gets the ordinal 2, and the title 10. Foo gets 0: the number in
    front of a title is read by its last digit alone.  Inside a marker, 十
    followed by 万 gives 10010, neither the number written nor 999. *)
Theorem leading_number_reads_last_digit :
  extract_chapter_number (py "12. Title") = Some 2
  /\ extract_chapter_number (py "10. Foo") = Some 0
  /\ extract_chapter_number (py "第十万章") = Some 10010.
Proof. repeat split; vm_compute; reflexivity. Qed.

(** * Further properties of the code *)

(** ** More on the ordering engine *)

Section OrderingMore.
Context {A : Type} `{ChapterLike A}.

Lemma enumerate_from_app (i : nat) (l1 l2 : list A) :
  enumerate_from i (l1 ++ l2)
  = enumerate_from i l1 ++ enumerate_from (i + List.length l1) l2.
Proof.
  revert i. induction l1 as [| c l1 IH]; intros i; simpl.
  - now rewrite Nat.add_0_r.
  - rewrite IH, Nat.add_succ_r. reflexivity.
Qed.

Lemma original_analyse (i : nat) (c : A) : original (analyse i c) = c.
Proof. reflexivity. Qed.

(** Two entries that are in ascending rank in the input, or tie, are never
    swapped: the one that came first comes first in the output. *)
Theorem ordered_pairs_keep_their_order (l1 l2 l3 : list A) (x y : A) :
  rank_le (rank_of x) (rank_of y) ->
  exists m1 m2 m3,
    process_and_sort_chapters (l1 ++ x :: l2 ++ y :: l3)
    = m1 ++ x :: m2 ++ y :: m3.
Proof.
  intros Hxy.
  set (l := l1 ++ x :: l2 ++ y :: l3).
  set (i := List.length l1).
  set (j := (i + 1 + List.length l2)%nat).
  assert (Henum : enumerate_from 0 l
                  = enumerate_from 0 l1 ++ analyse i x
                    :: enumerate_from (i + 1) l2 ++ analyse j y
                    :: enumerate_from (j + 1) l3).
  { unfold l. rewrite enumerate_from_app. cbn [enumerate_from]. fold i.
    change (0 + i)%nat with i. f_equal. f_equal.
    - replace (S i) with (i + 1)%nat by lia.
      rewrite enumerate_from_app. cbn [enumerate_from].
      fold j. f_equal. f_equal. f_equal. lia. }
  assert (Hx : In (analyse i x) (sorted_infos l)).
  { eapply Permutation_in; [apply Permutation_sym, sorted_infos_perm |].
    rewrite Henum. apply in_or_app. right. now left. }
  assert (Hy : In (analyse j y) (sorted_infos l)).
  { eapply Permutation_in; [apply Permutation_sym, sorted_infos_perm |].
    rewrite Henum. apply in_or_app. right. right.
    apply in_or_app. right. now left. }
  destruct (sorted_before ascending ascending_refl (sorted_infos l)
              (analyse i x) (analyse j y)) as (s1 & s2 & s3 & Hs);
    try assumption.
  - apply sort_by_key_sorted.
  - apply lex_lt_not_le.
    pose proof (rank_ascending i j x y Hxy ltac:(unfold j; lia)) as Hasc.
    destruct Hasc as [Hlt | Heq]; [exact Hlt |].
    rewrite !key_of_analyse in Heq.
    destruct (rank_of x) as [[[a1 a2] a3] a4], (rank_of y) as [[[b1 b2] b3] b4].
    injection Heq as _ _ _ _ Hij. unfold j in Hij. lia.
  - exists (List.map original s1), (List.map original s2),
      (List.map original s3).
    rewrite process_as_map, Hs, List.map_app. cbn [List.map].
    rewrite List.map_app. reflexivity.
Qed.

(** A list that is already in ascending rank comes back as it is. *)
Theorem ascending_input_is_unchanged (l : list A) :
  StronglySorted ranked l -> process_and_sort_chapters l = l.
Proof.
  intros Hs. rewrite process_as_map. unfold sorted_infos.
  rewrite sort_by_key_fixed.
  - apply original_enumerate.
  - now apply enumerate_ascending.
Qed.

(** An entry whose url carries a number below 999999 comes before every
    entry whose url carries none. *)
Theorem numbered_urls_come_first (l : list A) (x y : chapter_info A) (a : Z) :
  In x (sorted_infos l) -> In y (sorted_infos l) ->
  url_num x = Some a -> a < 999999 -> url_num y = None ->
  exists s1 s2 s3, sorted_infos l = s1 ++ x :: s2 ++ y :: s3.
Proof.
  intros Hx Hy Ha Hlt Hnone.
  apply (sorted_before ascending ascending_refl); try assumption.
  - apply sort_by_key_sorted.
  - apply lex_lt_not_le. unfold key_of. rewrite Ha, Hnone. simpl. left.
    exact Hlt.
Qed.
End OrderingMore.

Lemma ordered_pairs_keep_their_order_witness :
  exists m1 m2 m3,
    process_and_sort_chapters
      ([] ++ notes_unnumbered :: [first_at_3] ++ thanks_unnumbered :: [])
    = m1 ++ notes_unnumbered :: m2 ++ thanks_unnumbered :: m3.
Proof.
  apply ordered_pairs_keep_their_order.
  vm_compute. intuition congruence.
Defined.

Lemma ascending_input_is_unchanged_witness :
  process_and_sort_chapters [first_at_3; intro_at_5; notes_unnumbered]
  = [first_at_3; intro_at_5; notes_unnumbered].
Proof.
  apply ascending_input_is_unchanged.
  repeat constructor; vm_compute; intuition congruence.
Defined.

Lemma numbered_urls_come_first_witness :
  exists s1 s2 s3,
    sorted_infos [notes_unnumbered; intro_at_5]
    = s1 ++ analyse 1%nat intro_at_5 :: s2 ++ analyse 0%nat notes_unnumbered :: s3.
Proof.
  apply (numbered_urls_come_first _ _ _ 5).
  - vm_compute. left. reflexivity.
  - vm_compute. right. left. reflexivity.
  - vm_compute. reflexivity.
  - lia.
  - vm_compute. reflexivity.
Defined.

(** ** Numbers read from titles and urls *)

Lemma int_of_nonneg (s : pystr) : 0 <= int_of s.
Proof.
  unfold int_of.
  assert (Hacc : forall acc, 0 <= acc ->
            0 <= fold_left (fun a c => a * 10 + default 0 (digit_value c)) s acc).
  { induction s as [| c s IH]; intros acc Hacc; cbn [fold_left]; [exact Hacc |].
    apply IH. destruct (digit_value c) as [v |] eqn:Hv; cbn [default]; unfold id.
    - apply digit_value_range in Hv. lia.
    - lia. }
  apply Hacc. lia.
Qed.

Lemma dict_get_nonneg (c v : Z) : dict_get ch_num_map c = Some v -> 0 <= v.
Proof.
  unfold ch_num_map. cbn [dict_get].
  repeat match goal with
         | |- context [c =? ?k] =>
             destruct (Z.eqb_spec c k) as [_ | _];
             [intros Hv; injection Hv as <-; lia |]
         end.
  discriminate.
Qed.

(** The ordinal read from a title is never negative. *)
Theorem chapter_number_is_not_negative (title : pystr) (n : Z) :
  extract_chapter_number title = Some n -> 0 <= n.
Proof.
  unfold extract_chapter_number.
  destruct (search_di_zhang title) as [num_str |].
  - destruct (forallb is_digit num_str).
    + intros Hn. injection Hn as <-. apply int_of_nonneg.
    + destruct num_str as [| c0 [| c1 [| c2 rest]]].
      * intros Hn. injection Hn as <-. lia.
      * destruct (dict_get ch_num_map c0) as [v |] eqn:Hv;
          intros Hn; injection Hn as <-; [now apply dict_get_nonneg in Hv | lia].
      * destruct (c0 =? c_shi); [| intros Hn; injection Hn as <-; lia].
        destruct (dict_get ch_num_map c1) as [v |] eqn:Hv;
          intros Hn; injection Hn as <-;
          [apply dict_get_nonneg in Hv; lia | lia].
      * intros Hn. injection Hn as <-. lia.
  - destruct (search_num_zhang title) as [g |].
    + intros Hn. injection Hn as <-. apply int_of_nonneg.
    + destruct (match_leading_number title) as [g |]; [| discriminate].
      intros Hn. injection Hn as <-. apply int_of_nonneg.
Qed.

Lemma chapter_number_is_not_negative_witness : 0 <= 12.
Proof.
  apply (chapter_number_is_not_negative (py "第12章 风起")).
  vm_compute. reflexivity.
Defined.

Lemma url_number_nonneg (url : pystr) (n : Z) : url_number url = Some n -> 0 <= n.
Proof.
  unfold url_number. destruct (search_numeric_html url) as [g |]; [| discriminate].
  destruct (int_accepts g); [| discriminate].
  intros Hn. injection Hn as <-. apply int_of_nonneg.
Qed.

Lemma priority_of_range (title : pystr) (u c : option Z) :
  (forall v, u = Some v -> 0 <= v) -> (forall v, c = Some v -> 0 <= v) ->
  0 <= priority_of title u c <= 1000.
Proof.
  intros Hu Hc. unfold priority_of, truthy_below, is_num, is_none.
  destruct u as [a |], c as [b |];
    try (pose proof (Hu _ eq_refl)); try (pose proof (Hc _ eq_refl));
    cbn [default]; unfold id;
    repeat match goal with
           | |- context [if ?b then _ else _] => destruct b eqn:?
           end;
    repeat match goal with
           | Hb : (_ && _) = true |- _ => apply andb_true_iff in Hb as [? ?]
           | Hb : (_ <? _) = true |- _ => apply Z.ltb_lt in Hb
           end;
    lia.
Qed.

Lemma sequence_of_range (title : pystr) (u c : option Z) :
  0 <= sequence_of title u c <= 3.
Proof.
  unfold sequence_of.
  repeat match goal with
         | |- context [if ?b then _ else _] => destruct b
         end; lia.
Qed.

(** Whatever the entry, its special sequence lies between 0 and 3 and its
    priority between 0 and 1000. *)
Theorem sequence_and_priority_ranges {A : Type} `{ChapterLike A}
    (i : nat) (chapter : A) :
  0 <= sequence (analyse i chapter) <= 3
  /\ 0 <= priority (analyse i chapter) <= 1000.
Proof.
  split; cbn [analyse sequence priority].
  - apply sequence_of_range.
  - apply priority_of_range.
    + apply url_number_nonneg.
    + apply chapter_number_is_not_negative.
Qed.

Lemma search_di_zhang_absent (s : pystr) :
  ~ In c_di s -> search_di_zhang s = None.
Proof.
  induction s as [| c s IH]; intros Hno; cbn [search_di_zhang]; [reflexivity |].
  destruct (Z.eqb_spec c c_di) as [-> | _].
  - exfalso. apply Hno. now left.
  - apply IH. intros Hin. apply Hno. now right.
Qed.

Lemma search_num_zhang_first (pre d post : pystr) (c : Z) :
  forallb (fun x => negb (is_digit x)) pre = true ->
  d <> [] -> forallb is_digit d = true ->
  c = c_zhang \/ c = c_jie ->
  search_num_zhang (pre ++ d ++ c :: post) = Some d.
Proof.
  intros Hpre Hd Hdigits Hc.
  assert (Hcd : is_digit c = false) by (destruct Hc as [-> | ->]; reflexivity).
  induction pre as [| x pre IH].
  - destruct d as [| x d]; [congruence |].
    cbn [app search_num_zhang].
    pose proof Hdigits as Hx. cbn [forallb] in Hx.
    apply andb_true_iff in Hx as [Hx _]. rewrite Hx.
    change (x :: d ++ c :: post) with ((x :: d) ++ c :: post).
    rewrite (span_run is_digit (x :: d) (c :: post) Hdigits Hcd).
    destruct Hc as [-> | ->]; reflexivity.
  - cbn [forallb] in Hpre. apply andb_true_iff in Hpre as [Hx Hpre].
    cbn [app search_num_zhang].
    apply negb_true_iff in Hx. rewrite Hx. now apply IH.
Qed.

(** In a title without 第, a number written in digits, at most 4300 of
    them, and followed by 章 or 节 is read whole, without an error, provided
    no digit comes before it. *)
Theorem number_before_zhang_is_read_whole (pre d post : pystr) (c : Z) :
  ~ In c_di pre -> ~ In c_di post ->
  forallb (fun x => negb (is_digit x)) pre = true ->
  d <> [] -> forallb is_digit d = true ->
  Z.of_nat (List.length d) <= 4300 ->
  c = c_zhang \/ c = c_jie ->
  extract_chapter_number_raises (pre ++ d ++ c :: post) = false
  /\ extract_chapter_number (pre ++ d ++ c :: post) = Some (int_of d).
Proof.
  intros Hpre Hpost Hnodigit Hd Hdigits Hlimit Hc.
  unfold extract_chapter_number, extract_chapter_number_raises.
  rewrite search_di_zhang_absent.
  - rewrite (search_num_zhang_first pre d post c) by assumption.
    split; [| reflexivity].
    unfold int_accepts, INT_MAX_STR_DIGITS.
    apply negb_false_iff, Z.leb_le. exact Hlimit.
  - intros Hin. apply in_app_or in Hin as [Hin | Hin]; [now apply Hpre |].
    apply in_app_or in Hin as [Hin | [Hin | Hin]].
    + rewrite forallb_forall in Hdigits. apply Hdigits in Hin.
      discriminate Hin.
    + destruct Hc as [-> | ->]; discriminate Hin.
    + now apply Hpost.
Qed.

Lemma number_before_zhang_is_read_whole_witness :
  extract_chapter_number_raises
    (py "卷一 " ++ py "34" ++ c_jie :: py " 夜雨") = false
  /\ extract_chapter_number (py "卷一 " ++ py "34" ++ c_jie :: py " 夜雨")
     = Some 34.
Proof.
  apply (number_before_zhang_is_read_whole (py "卷一 ") (py "34") (py " 夜雨")).
  - vm_compute. intuition discriminate.
  - vm_compute. intuition discriminate.
  - vm_compute. reflexivity.
  - discriminate.
  - vm_compute. reflexivity.
  - vm_compute. discriminate.
  - right. reflexivity.
Defined.

Lemma marker_number_cases_witness :
  extract_chapter_number (py "序 " ++ c_di :: py "二十一" ++ c_zhang :: py " 夜")
  = Some 999
  /\ extract_chapter_number_raises
       (py "序 " ++ c_di :: py "二十一" ++ c_zhang :: py " 夜") = false.
Proof.
  destruct (marker_number_cases (py "序 ") (py "二十一") (py " 夜"))
    as (Hraises & _ & _ & _ & Hother).
  - vm_compute. intuition discriminate.
  - discriminate.
  - vm_compute. reflexivity.
  - split.
    + apply Hother.
      * vm_compute. reflexivity.
      * vm_compute. lia.
      * intros c v Hx. discriminate Hx.
    + rewrite Hraises. vm_compute. reflexivity.
Defined.

(** ** More on the link classifier *)

Lemma lstrip_head (s : pystr) :
  lstrip s = [] \/ exists c r, lstrip s = c :: r /\ is_space c = false.
Proof.
  induction s as [| c s IH]; cbn [lstrip]; [now left |].
  destruct (is_space c) eqn:Hc; [exact IH | right; eauto].
Qed.

Lemma lstrip_fixed (c : Z) (r : pystr) :
  is_space c = false -> lstrip (c :: r) = c :: r.
Proof. intros Hc. cbn [lstrip]. now rewrite Hc. Qed.

Lemma rstrip_cons (c : Z) (r : pystr) :
  is_space c = false -> rstrip (c :: r) = c :: rstrip r.
Proof.
  intros Hc. unfold rstrip. cbn [rev].
  rewrite (lstrip_app (rev r) [] c Hc), rev_app_distr. reflexivity.
Qed.

Lemma lstrip_twice (s : pystr) : lstrip (lstrip s) = lstrip s.
Proof.
  destruct (lstrip_head s) as [-> | (c & r & -> & Hc)]; [reflexivity |].
  now apply lstrip_fixed.
Qed.

Lemma rstrip_twice (s : pystr) : rstrip (rstrip s) = rstrip s.
Proof. unfold rstrip. now rewrite rev_involutive, lstrip_twice. Qed.

(** Stripping a stripped string changes nothing. *)
Lemma strip_twice (s : pystr) : strip (strip s) = strip s.
Proof.
  unfold strip.
  destruct (lstrip_head s) as [-> | (c & r & -> & Hc)]; [reflexivity |].
  rewrite (rstrip_cons c r Hc), (lstrip_fixed c _ Hc).
  rewrite (rstrip_cons c _ Hc), rstrip_twice. reflexivity.
Qed.

(** White space around the text of a link does not change how the link is
    classified: the text may be stripped before the call, as both callers
    do, or not. *)
Theorem classification_ignores_outer_space (title href : pystr) :
  is_likely_chapter_link (strip title) href = is_likely_chapter_link title href.
Proof. unfold is_likely_chapter_link. now rewrite strip_twice. Qed.

(** A link to a page named by a number is taken for a chapter link whenever
    its text, stripped, has two characters or more and holds no word of the
    block list. *)
Theorem numeric_page_link_is_accepted (title pre d : pystr) :
  (forall w, In w blocklist -> contains w (strip title) = false) ->
  2 <= len (strip title) ->
  d <> [] -> forallb is_digit d = true ->
  fst (is_likely_chapter_link title (pre ++ c_slash :: d ++ s_dot_html)) = true.
Proof.
  intros Hblock Hlen Hd Hdigits. unfold is_likely_chapter_link.
  replace (existsb (fun x => contains x (strip title)) blocklist) with false.
  - replace (len (strip title) <? 2) with false
      by (symmetry; apply Z.ltb_ge; exact Hlen).
    destruct (search_ordinal_marker (strip title)); [reflexivity |].
    destruct (match_leading_digits (strip title)); [reflexivity |].
    destruct (existsb _ special_names); [reflexivity |].
    now rewrite (search_numeric_html_complete pre d Hd Hdigits).
  - symmetry. destruct (existsb _ blocklist) eqn:Hex; [| reflexivity].
    apply existsb_exists in Hex as (w & Hw & Hin).
    rewrite (Hblock w Hw) in Hin. discriminate Hin.
Qed.

Lemma numeric_page_link_is_accepted_witness :
  fst (is_likely_chapter_link (py " 夜雨 ")
         (py "/b" ++ c_slash :: py "17" ++ s_dot_html)) = true.
Proof.
  apply numeric_page_link_is_accepted.
  - intros w Hw. unfold blocklist in Hw. cbn [In] in Hw.
    repeat destruct Hw as [<- | Hw]; try contradiction; vm_compute; reflexivity.
  - vm_compute. discriminate.
  - discriminate.
  - vm_compute. reflexivity.
Defined.

(** ** Records of fetched chapters *)

Section RecordFacts.
Context `{Site}.

Lemma or_else_default_nonempty (a b : option pystr) (d : pystr) :
  d <> [] -> default d (or_else a (or_else b (Some d))) <> [].
Proof.
  intros Hd. destruct a as [[| x a] |], b as [[| y b] |];
    cbn [or_else default]; unfold id; congruence.
Qed.

Lemma crawl_chapter_url (u : pystr) (name auth : option pystr)
    (r : chapter_data) :
  crawl_chapter u name auth = Some r -> cd_url r = u.
Proof.
  unfold crawl_chapter. destruct (arun u) as [html |]; [| discriminate].
  destruct (negb (nonempty (body_text html)) || _); [discriminate |].
  intros Hr. injection Hr as <-. reflexivity.
Qed.

(** A record is only made of a page whose body keeps 20 characters or
    more after stripping; it carries the address that was asked for, and
    its novel name and author are never empty. *)
Theorem record_is_well_formed (u : pystr) (name auth : option pystr)
    (r : chapter_data) :
  crawl_chapter u name auth = Some r ->
  cd_url r = u /\ novel_name r <> [] /\ author r <> []
  /\ exists html, arun u = Some html
                  /\ 20 <= len (strip (body_text html))
                  /\ content r = clean_content (body_text html).
Proof.
  unfold crawl_chapter. destruct (arun u) as [html |]; [| discriminate].
  destruct (negb (nonempty (body_text html))
            || (len (strip (body_text html)) <? MIN_CONTENT_LENGTH)) eqn:Hbody;
    [discriminate |].
  apply orb_false_iff in Hbody as [_ Hlen]. apply Z.ltb_ge in Hlen.
  intros Hr. injection Hr as <-. cbn.
  repeat split.
  - now apply or_else_default_nonempty.
  - now apply or_else_default_nonempty.
  - exists html. repeat split. exact Hlen.
Qed.
End RecordFacts.

Lemma record_is_well_formed_witness :
  exists r, crawl_chapter (H := thin_site) url_b None None = Some r
            /\ cd_url r = url_b /\ novel_name r <> [] /\ author r <> [].
Proof.
  destruct (crawl_chapter (H := thin_site) url_b None None) as [r |] eqn:Hr;
    [| vm_compute in Hr; discriminate Hr].
  exists r. split; [reflexivity |].
  destruct (record_is_well_formed (H := thin_site) url_b None None r Hr)
    as (Hu & Hn & Ha & _).
  repeat split; assumption.
Defined.

(** ** More on listing pages *)

Section ListingFacts.
Context `{Site}.

Lemma unique_chapters_spec (cs : list chapter) (seen : gset pystr) :
  List.NoDup (List.map url (unique_chapters cs seen))
  /\ forall c, In c (unique_chapters cs seen) -> (url c ∉ seen) /\ In c cs.
Proof.
  revert seen. induction cs as [| c cs IH]; intros seen; cbn [unique_chapters].
  - split; [constructor | intros c []].
  - destruct (bool_decide (url c ∈ seen)) eqn:Hc.
    + destruct (IH seen) as [Hnd Hin]. split; [exact Hnd |].
      intros d Hd. destruct (Hin d Hd). split; [assumption | now right].
    + apply bool_decide_eq_false in Hc.
      destruct (IH ({[url c]} ∪ seen)) as [Hnd Hin]. split.
      * cbn [List.map]. constructor; [| exact Hnd].
        intros Hdup. apply in_map_iff in Hdup as (d & Hurl & Hd).
        destruct (Hin d Hd) as [Hnew _]. apply Hnew.
        apply elem_of_union. left. apply elem_of_singleton. exact Hurl.
      * intros d [<- | Hd]; [split; [exact Hc | now left] |].
        destruct (Hin d Hd) as [Hnew Hcs]. split; [| now right].
        intros Hseen. apply Hnew. apply elem_of_union. now right.
Qed.

(** No address occurs twice among the chapters of an index. *)
Theorem index_has_no_duplicate_urls (u : pystr) (idx : novel_index) :
  crawl_index_page u = Some idx -> List.NoDup (List.map url (chapters idx)).
Proof.
  unfold crawl_index_page. destruct (arun u) as [html |]; [| discriminate].
  destruct (collect_chapters u html) as [unique |] eqn:Hcollect; [| discriminate].
  intros Hidx. injection Hidx as <-. cbn [chapters].
  eapply Permutation_NoDup.
  - apply Permutation_map, Permutation_sym, process_perm.
  - unfold collect_chapters in Hcollect.
    destruct (if len _ <? 10 then _ else _) as [all_chapters |];
      [| discriminate].
    injection Hcollect as <-. apply unique_chapters_spec.
Qed.

(** When no chapter region is found on a listing page that has a link, the
    scan of the whole page calls the classifier, which is defined only
    where a region was found: the call raises and the result is [None]. *)
Theorem listing_without_region_fails (u html : pystr) :
  arun u = Some html ->
  chapter_region html = [] ->
  find_links html <> [] ->
  crawl_index_page u = None.
Proof.
  intros Hfetch Hregion Hlinks. unfold crawl_index_page, collect_chapters.
  rewrite Hfetch, Hregion. cbn [nonempty len List.length Z.of_nat Z.ltb
                                Z.compare List.map list_to_set].
  destruct (find_links html) as [| [href text] rest]; [congruence |].
  cbn [page_chapters negb].
  rewrite bool_decide_eq_false_2; [reflexivity |].
  apply not_elem_of_empty.
Qed.
End ListingFacts.

Lemma index_has_no_duplicate_urls_witness :
  exists idx, crawl_index_page (H := doubled_site) url_listing = Some idx
              /\ List.NoDup (List.map url (chapters idx))
              /\ List.length (chapters idx) = 2%nat.
Proof.
  destruct (crawl_index_page (H := doubled_site) url_listing) as [idx |] eqn:Hidx;
    [| vm_compute in Hidx; discriminate Hidx].
  exists idx. split; [reflexivity |]. split.
  - exact (index_has_no_duplicate_urls (H := doubled_site) url_listing idx Hidx).
  - vm_compute in Hidx. injection Hidx as <-. reflexivity.
Defined.

Lemma listing_without_region_fails_witness :
  crawl_index_page (H := cyclic_site) url_a = None.
Proof.
  apply (listing_without_region_fails (H := cyclic_site) url_a (py "<a>")).
  - vm_compute. reflexivity.
  - vm_compute. reflexivity.
  - vm_compute. discriminate.
Defined.

(** ** What the walk keeps *)

Lemma nodup_snoc {T : Type} (l : list T) (x : T) :
  List.NoDup l -> ~ In x l -> List.NoDup (l ++ [x]).
Proof.
  intros Hnd Hx. induction Hnd as [| y l Hy Hnd IH]; cbn.
  - constructor; [intros [] | constructor].
  - constructor.
    + intros Hin. apply in_app_or in Hin as [Hin | [Hin | []]].
      * now apply Hy.
      * apply Hx. now left.
    + apply IH. intros Hin. apply Hx. now right.
Qed.

Section WalkInvariant.
Context `{Site}.

Lemma urls_of_elem (u : pystr) (data : list chapter_data) :
  u ∈ urls_of data <-> In u (List.map cd_url data).
Proof.
  unfold urls_of. rewrite elem_of_list_to_set. apply list_elem_of_In.
Qed.

(** One turn keeps the set of crawled addresses equal to the addresses of
    the records, keeps those addresses different from one another, only
    appends records, counts them, and stays within the budget. *)
Lemma walk_step_keeps (budget : Z) (st : walk_state) :
  (forall u, u ∈ crawled_urls st <-> In u (List.map cd_url (chapters_data st))) ->
  count st <= budget ->
  forall st', (walk_step budget st = Continue st' \/ walk_step budget st = Break st') ->
  (forall u, u ∈ crawled_urls st' <-> In u (List.map cd_url (chapters_data st')))
  /\ (List.NoDup (List.map cd_url (chapters_data st)) ->
      List.NoDup (List.map cd_url (chapters_data st')))
  /\ count st' <= budget
  /\ exists new, chapters_data st' = chapters_data st ++ new
                 /\ count st' = count st + len new.
Proof.
  intros Hset Hcount st' Hstep.
  assert (Hsame : st' = st ->
            (forall u, u ∈ crawled_urls st'
                       <-> In u (List.map cd_url (chapters_data st')))
            /\ (List.NoDup (List.map cd_url (chapters_data st)) ->
      List.NoDup (List.map cd_url (chapters_data st')))
            /\ count st' <= budget
            /\ exists new, chapters_data st' = chapters_data st ++ new
                           /\ count st' = count st + len new).
  { intros ->. split; [exact Hset |]. split; [auto |].
    split; [exact Hcount |].
    exists []. rewrite app_nil_r. split; [reflexivity |]. unfold len. cbn. lia. }
  unfold walk_step in Hstep.
  destruct (Z.ltb_spec (count st) budget) as [Hlt | _];
    [| destruct Hstep as [Hs | Hs]; [discriminate | injection Hs as <-; now apply Hsame]].
  destruct (bool_decide (current_url st ∈ crawled_urls st)) eqn:Hseen.
  - destruct (stored_next (current_url st) (chapters_data st)) as [next |];
      [| destruct Hstep as [Hs | Hs]; [discriminate | injection Hs as <-; now apply Hsame]].
    destruct (nonempty next && negb (str_eqb next (current_url st)));
      destruct Hstep as [Hs | Hs]; try discriminate; injection Hs as <-;
      [| now apply Hsame].
    cbn. split; [exact Hset |]. split; [auto |]. split; [exact Hcount |].
    exists []. rewrite app_nil_r. split; [reflexivity |]. unfold len. cbn. lia.
  - apply bool_decide_eq_false in Hseen.
    destruct (crawl_chapter (current_url st) (walk_novel_name st) (walk_author st))
      as [chapter |] eqn:Hfetch;
      [| destruct Hstep as [Hs | Hs]; [discriminate | injection Hs as <-; now apply Hsame]].
    pose proof (crawl_chapter_url _ _ _ _ Hfetch) as Hurl.
    assert (Hnew :
      forall next name auth,
        let st2 := mk_walk next (count st + 1) (chapters_data st ++ [chapter])
                     ({[current_url st]} ∪ crawled_urls st) name auth in
        (forall u, u ∈ crawled_urls st2
                   <-> In u (List.map cd_url (chapters_data st2)))
        /\ (List.NoDup (List.map cd_url (chapters_data st)) ->
            List.NoDup (List.map cd_url (chapters_data st2)))
        /\ count st2 <= budget
        /\ exists new, chapters_data st2 = chapters_data st ++ new
                       /\ count st2 = count st + len new).
    { intros next name auth. cbn. repeat split.
      - intros Hu. rewrite List.map_app. apply in_or_app.
        apply elem_of_union in Hu as [Hu | Hu].
        + right. apply elem_of_singleton in Hu. subst u. cbn. now left.
        + left. now apply Hset.
      - rewrite List.map_app. intros Hu. apply in_app_or in Hu as [Hu | Hu].
        + apply elem_of_union. right. now apply Hset.
        + apply elem_of_union. left. apply elem_of_singleton.
          cbn in Hu. destruct Hu as [Hu | []]. congruence.
      - intros Hnd. rewrite List.map_app. cbn.
        apply nodup_snoc; [exact Hnd |].
        rewrite Hurl. intros Hin. apply Hseen. now apply Hset.
      - lia.
      - exists [chapter]. split; [reflexivity |]. unfold len. cbn. lia. }
    destruct (negb (nonempty (next_url chapter))
              || str_eqb (next_url chapter) (current_url st));
      [destruct Hstep as [Hs | Hs]; [discriminate | injection Hs as <-; apply Hnew] |].
    destruct (is_directory_page (next_url chapter));
      destruct Hstep as [Hs | Hs]; try discriminate; injection Hs as <-;
      apply Hnew.
Qed.

Lemma walk_keeps (fuel : nat) (budget : Z) (st st' : walk_state) :
  (forall u, u ∈ crawled_urls st <-> In u (List.map cd_url (chapters_data st))) ->
  count st <= budget ->
  walk fuel budget st = Some st' ->
  (List.NoDup (List.map cd_url (chapters_data st)) ->
   List.NoDup (List.map cd_url (chapters_data st')))
  /\ count st' <= budget
  /\ exists new, chapters_data st' = chapters_data st ++ new
                 /\ count st' = count st + len new.
Proof.
  revert st. induction fuel as [| fuel IH]; intros st Hset Hcount;
    cbn [walk]; [discriminate |].
  destruct (walk_step budget st) as [s1 | s1] eqn:Hstep.
  - destruct (walk_step_keeps budget st Hset Hcount s1 (or_introl Hstep))
      as (Hset1 & Hnd1 & Hcount1 & new1 & Hdata1 & Hn1).
    intros Hwalk.
    destruct (IH s1 Hset1 Hcount1 Hwalk) as (Hnd2 & Hcount2 & new2 & Hdata2 & Hn2).
    split; [auto |]. split; [exact Hcount2 |].
    exists (new1 ++ new2). rewrite Hdata2, Hdata1, <- app_assoc.
    split; [reflexivity |].
    rewrite Hn2, Hn1. unfold len. rewrite length_app. lia.
  - destruct (walk_step_keeps budget st Hset Hcount s1 (or_intror Hstep))
      as (_ & Hnd1 & Hcount1 & Hnew).
    intros Hwalk. injection Hwalk as <-. auto.
Qed.

Lemma walk_budget_positive (num_chapters : Z) : 0 < walk_budget num_chapters.
Proof.
  unfold walk_budget. destruct (Z.ltb_spec 0 num_chapters); lia.
Qed.

(** The walk keeps the records it was given in front, in their order, and
    appends no more than the budget: as many as its counter says. *)
Theorem walk_stays_within_budget (fuel : nat) (num_chapters : Z)
    (u : pystr) (last_url : option pystr) (resume : bool)
    (loaded : list chapter_data) (st' : walk_state) :
  walk fuel (walk_budget num_chapters) (walk_start u last_url resume loaded)
  = Some st' ->
  exists new, chapters_data st' = loaded ++ new
              /\ len new = count st'
              /\ count st' <= walk_budget num_chapters.
Proof.
  intros Hwalk.
  pose proof (walk_budget_positive num_chapters) as Hpos.
  destruct (walk_keeps fuel (walk_budget num_chapters)
              (walk_start u last_url resume loaded) st'
              (fun v => urls_of_elem v loaded) ltac:(cbn; lia) Hwalk)
    as (_ & Hcount & new & Hdata & Hn).
  exists new. cbn in Hdata, Hn. repeat split; [exact Hdata | lia | exact Hcount].
Qed.

(** The walk never records an address twice: when the records it was given
    have different addresses, so have the records it ends with. *)
Theorem walk_records_each_url_once (fuel : nat) (num_chapters : Z)
    (u : pystr) (last_url : option pystr) (resume : bool)
    (loaded : list chapter_data) (st' : walk_state) :
  List.NoDup (List.map cd_url loaded) ->
  walk fuel (walk_budget num_chapters) (walk_start u last_url resume loaded)
  = Some st' ->
  List.NoDup (List.map cd_url (chapters_data st')).
Proof.
  intros Hnd Hwalk.
  pose proof (walk_budget_positive num_chapters) as Hpos.
  destruct (walk_keeps fuel (walk_budget num_chapters)
              (walk_start u last_url resume loaded) st'
              (fun v => urls_of_elem v loaded) ltac:(cbn; lia) Hwalk)
    as (Hkeep & _).
  now apply Hkeep.
Qed.
End WalkInvariant.

Lemma walk_stays_within_budget_witness :
  exists st' new,
    walk (H := cyclic_site) 3 (walk_budget 2) (walk_start url_a None false [])
    = Some st'
    /\ chapters_data st' = [] ++ new /\ len new = count st'
    /\ count st' <= walk_budget 2.
Proof.
  destruct (walk (H := cyclic_site) 3 (walk_budget 2)
              (walk_start url_a None false [])) as [st' |] eqn:Hwalk;
    [| vm_compute in Hwalk; discriminate Hwalk].
  destruct (walk_stays_within_budget (H := cyclic_site) 3 2 url_a None false
              [] st' Hwalk) as (new & Hnew).
  exists st', new. split; [reflexivity | exact Hnew].
Defined.

Lemma walk_records_each_url_once_witness :
  exists st',
    walk (H := cyclic_site) 3 (walk_budget 2) (walk_start url_a None false [])
    = Some st'
    /\ List.NoDup (List.map cd_url (chapters_data st')).
Proof.
  destruct (walk (H := cyclic_site) 3 (walk_budget 2)
              (walk_start url_a None false [])) as [st' |] eqn:Hwalk;
    [| vm_compute in Hwalk; discriminate Hwalk].
  exists st'. split; [reflexivity |].
  apply (walk_records_each_url_once (H := cyclic_site) 3 2 url_a None false []
           st'); [constructor | exact Hwalk].
Defined.

(** ** Crawling a known list *)

Lemma successes_length (results : list (option chapter_data)) :
  (List.length (successes results) <= List.length results)%nat.
Proof.
  induction results as [| [r |] results IH]; cbn [successes List.length]; lia.
Qed.

Lemma successes_from (r : chapter_data) (results : list (option chapter_data)) :
  In r (successes results) -> In (Some r) results.
Proof.
  induction results as [| [r' |] results IH]; cbn [successes].
  - intros [].
  - intros [-> | Hin]; [now left | right; now apply IH].
  - intros Hin. right. now apply IH.
Qed.

Lemma in_firstn {T : Type} (k : nat) (l : list T) (x : T) :
  In x (firstn k l) -> In x l.
Proof.
  intros Hin. rewrite <- (firstn_skipn k l). apply in_or_app. now left.
Qed.

Lemma chapters_to_crawl_bounds (num_chapters : Z) (total : list chapter) :
  (chapters_to_crawl num_chapters total <= List.length total)%nat
  /\ (num_chapters <= 0
      \/ Z.of_nat (chapters_to_crawl num_chapters total) <= num_chapters).
Proof.
  unfold chapters_to_crawl, len.
  destruct (Z.ltb_spec 0 num_chapters) as [Hpos | Hnone]; split; lia.
Qed.

(** The crawl of a listed novel keeps the records it was given in front and
    appends at most one record per listed chapter and, when a budget is
    given, at most that many; every record appended is that of a listed
    chapter whose address had not been crawled before. *)
Theorem listed_crawl_bounds `{Site} (num_chapters : Z) (total : list chapter)
    (data : list chapter_data) (name auth : option pystr) :
  exists new,
    crawl_listed num_chapters total data name auth = data ++ new
    /\ (List.length new <= List.length total)%nat
    /\ (num_chapters <= 0 \/ len new <= num_chapters)
    /\ (forall r, In r new ->
          (cd_url r ∉ urls_of data)
          /\ exists c, In c total /\ url c = cd_url r).
Proof.
  unfold crawl_listed.
  set (k := chapters_to_crawl num_chapters total).
  set (tasks := List.filter
                  (fun c => negb (bool_decide (url c ∈ urls_of data)))
                  (firstn k total)).
  set (new := successes
                (List.map (crawl_chapter_with_semaphore (urls_of data) name auth)
                   tasks)).
  destruct (chapters_to_crawl_bounds num_chapters total) as [Hk Hbudget].
  fold k in Hk, Hbudget.
  assert (Hlen : (List.length new <= k)%nat).
  { unfold new. etransitivity; [apply successes_length |].
    rewrite length_map. unfold tasks.
    etransitivity; [apply filter_length_le |].
    rewrite length_firstn. lia. }
  exists new. split; [reflexivity |]. split; [lia |]. split.
  - destruct Hbudget as [Hnone | Hbudget]; [now left | right].
    unfold len. lia.
  - intros r Hr. unfold new in Hr. apply successes_from in Hr.
    apply in_map_iff in Hr as (c & Hfetch & Hc).
    unfold tasks in Hc. apply filter_In in Hc as [Hc Hnew].
    apply negb_true_iff, bool_decide_eq_false in Hnew.
    unfold crawl_chapter_with_semaphore in Hfetch.
    rewrite bool_decide_eq_false_2 in Hfetch by exact Hnew.
    pose proof (crawl_chapter_url _ _ _ _ Hfetch) as Hurl.
    rewrite Hurl. split; [exact Hnew |].
    exists c. split; [now apply in_firstn in Hc | reflexivity].
Qed.

(** When the chapter the run was started at is in the sorted list, the
    list is cut right before its first occurrence: what is kept begins with
    that chapter and nothing after it is lost. *)
Theorem slice_starts_at_given_chapter (u : pystr) (total : list chapter) :
  has_url u total = true ->
  exists before c rest,
    total = before ++ c :: rest
    /\ has_url u before = false
    /\ url c = u
    /\ skipn (start_index_of u total) total = c :: rest.
Proof.
  induction total as [| c0 total IH]; [discriminate |].
  unfold has_url in *. cbn [existsb start_index_of].
  destruct (str_eqb (url c0) u) eqn:Hhead.
  - intros _. apply str_eqb_eq in Hhead.
    exists [], c0, total. repeat split; assumption.
  - cbn [orb]. intros Hrest.
    destruct (IH Hrest) as (before & c & rest & -> & Hbefore & Hc & Hskip).
    exists (c0 :: before), c, rest.
    fold (has_url u (before ++ c :: rest)). unfold has_url at 1.
    rewrite Hrest. cbn [existsb skipn]. rewrite Hhead, Hbefore.
    repeat split; assumption.
Qed.

Lemma slice_starts_at_given_chapter_witness :
  exists before c rest,
    [first_at_3; intro_at_5; notes_unnumbered] = before ++ c :: rest
    /\ has_url (url intro_at_5) before = false
    /\ url c = url intro_at_5
    /\ skipn (start_index_of (url intro_at_5)
                [first_at_3; intro_at_5; notes_unnumbered])
         [first_at_3; intro_at_5; notes_unnumbered] = c :: rest.
Proof.
  apply slice_starts_at_given_chapter. vm_compute. reflexivity.
Defined.


(** ** File names *)

Lemma replaced_char_is_valid (c : Z) :
  is_invalid_char (if is_invalid_char c then c_underscore else c) = false.
Proof. destruct (is_invalid_char c) eqn:Hc; [reflexivity | exact Hc]. Qed.

Lemma replaced_char_fixed (c : Z) :
  is_invalid_char c = false ->
  (if is_invalid_char c then c_underscore else c) = c.
Proof. now intros ->. Qed.

Lemma sanitized_chars_valid (filename : pystr) :
  forallb (fun c => negb (is_invalid_char c)) (sanitize_filename filename) = true.
Proof.
  destruct filename as [| c0 filename]; [reflexivity |].
  unfold sanitize_filename.
  induction (c0 :: filename) as [| c l IH]; cbn [List.map forallb];
    [reflexivity |].
  now rewrite replaced_char_is_valid, IH.
Qed.

(** A sanitized name holds none of the characters replaced, is never
    empty, is as long as the name it was made of unless that was empty, and
    is left as it is when sanitized again. *)
Theorem sanitized_name_is_safe (filename : pystr) :
  forallb (fun c => negb (is_invalid_char c)) (sanitize_filename filename) = true
  /\ sanitize_filename filename <> []
  /\ (filename = []
      \/ List.length (sanitize_filename filename) = List.length filename)
  /\ sanitize_filename (sanitize_filename filename) = sanitize_filename filename.
Proof.
  destruct filename as [| c0 filename]; [repeat split; auto; discriminate |].
  set (name := c0 :: filename).
  assert (Hvalid : forall l,
            forallb (fun c => negb (is_invalid_char c))
              (List.map (fun c => if is_invalid_char c then c_underscore else c) l)
            = true).
  { induction l as [| c l IH]; cbn [List.map forallb]; [reflexivity |].
    now rewrite replaced_char_is_valid, IH. }
  assert (Hfixed : forall l,
            forallb (fun c => negb (is_invalid_char c)) l = true ->
            List.map (fun c => if is_invalid_char c then c_underscore else c) l = l).
  { induction l as [| c l IH]; cbn [List.map forallb]; [reflexivity |].
    intros Hl. apply andb_true_iff in Hl as [Hc Hl].
    apply negb_true_iff in Hc. now rewrite (replaced_char_fixed c Hc), IH. }
  split; [apply Hvalid |]. split; [discriminate |].
  split; [right; apply length_map |].
  unfold name. cbn [sanitize_filename List.map].
  f_equal.
  - apply replaced_char_fixed, replaced_char_is_valid.
  - apply Hfixed, Hvalid.
Qed.

Lemma uint_chars_are_digits (u : Decimal.uint) :
  forallb (fun c => (48 <=? c) && (c <=? 57)) (uint_chars u) = true.
Proof. induction u; cbn [uint_chars forallb]; try rewrite IHu; reflexivity. Qed.

Lemma format_03d_digits (n : nat) :
  forallb (fun c => (48 <=? c) && (c <=? 57)) (format_03d n) = true
  /\ (3 <= List.length (format_03d n))%nat.
Proof.
  unfold format_03d. split.
  - rewrite forallb_app, uint_chars_are_digits, andb_true_r.
    induction (3 - List.length (uint_chars (Nat.to_uint n)))%nat as [| k IH];
      cbn [List.repeat forallb]; [reflexivity | now rewrite IH].
  - rewrite length_app, repeat_length. lia.
Qed.

Lemma ascii_digit_is_valid (c : Z) :
  (48 <=? c) && (c <=? 57) = true -> negb (is_invalid_char c) = true.
Proof.
  intros Hc. apply andb_true_iff in Hc as [Hlo Hhi].
  apply Z.leb_le in Hlo. apply Z.leb_le in Hhi.
  unfold is_invalid_char, invalid_chars. cbn [existsb].
  repeat match goal with
         | |- context [Z.eqb ?a ?b] => destruct (Z.eqb_spec a b); [lia |]
         end.
  reflexivity.
Qed.

(** The name of a chapter file starts with three digits or more, holds no
    separator of directories nor any other character of the class replaced,
    and ends in [.md]. *)
Theorem chapter_filename_is_safe (existing : nat) (title : pystr) :
  forallb (fun c => negb (is_invalid_char c)) (chapter_filename existing title)
  = true
  /\ endswith (chapter_filename existing title) s_dot_md = true
  /\ exists number rest,
       chapter_filename existing title = number ++ c_underscore :: rest
       /\ (3 <= List.length number)%nat
       /\ forallb (fun c => (48 <=? c) && (c <=? 57)) number = true.
Proof.
  unfold chapter_filename.
  destruct (format_03d_digits (existing + 1)) as [Hdigits Hlen].
  pose proof (sanitized_chars_valid title) as Hsafe.
  split; [| split].
  - rewrite !forallb_app. rewrite Hsafe.
    replace (forallb (fun c => negb (is_invalid_char c)) (format_03d (existing + 1)))
      with true.
    + reflexivity.
    + symmetry. apply forallb_forall. intros c Hc.
      apply ascii_digit_is_valid.
      rewrite forallb_forall in Hdigits. now apply Hdigits.
  - apply endswith_suffix.
    exists (format_03d (existing + 1) ++ [c_underscore] ++ sanitize_filename title).
    now rewrite <- !app_assoc.
  - exists (format_03d (existing + 1)), (sanitize_filename title ++ s_dot_md).
    repeat split; assumption.
Qed.

(** ** The progress file *)

Section StableSortFacts.
Context {T : Type} (key : T -> Z).

Lemma insert_by_perm (x : T) (l : list T) :
  Permutation (insert_by key x l) (x :: l).
Proof.
  induction l as [| y l IH]; cbn [insert_by]; [apply Permutation_refl |].
  destruct (key y <? key x).
  - eapply Permutation_trans; [apply perm_skip, IH | apply perm_swap].
  - apply Permutation_refl.
Qed.

Lemma sort_by_perm (l : list T) : Permutation (sort_by key l) l.
Proof.
  induction l as [| x l IH]; cbn [sort_by]; [apply Permutation_refl |].
  eapply Permutation_trans; [apply insert_by_perm | now apply perm_skip].
Qed.

Lemma sort_by_fixed (l : list T) :
  StronglySorted (fun x y => key x <= key y) l -> sort_by key l = l.
Proof.
  intros Hs. induction Hs as [| x l Hs IH Hx]; cbn [sort_by]; [reflexivity |].
  rewrite IH. destruct l as [| y l]; cbn [insert_by]; [reflexivity |].
  apply Forall_inv in Hx.
  destruct (Z.ltb_spec (key y) (key x)); [lia | reflexivity].
Qed.
End StableSortFacts.

Lemma in_number_from (i : nat) (chapters : list stored_chapter)
    (x : stored_chapter) :
  In x (number_from i chapters) ->
  exists j, (i <= j)%nat /\ stored_index x = Some (Z.of_nat j).
Proof.
  revert i. induction chapters as [| c chapters IH]; intros i;
    cbn [number_from]; [intros [] |].
  intros [<- | Hx].
  - exists i. split; [lia | reflexivity].
  - destruct (IH _ Hx) as (j & Hj & Hidx). exists j. split; [lia | exact Hidx].
Qed.

Lemma number_from_ascending (i : nat) (chapters : list stored_chapter) :
  StronglySorted (fun x y => index_key x <= index_key y)
    (number_from i chapters).
Proof.
  revert i. induction chapters as [| c chapters IH]; intros i;
    cbn [number_from]; constructor; [apply IH |].
  rewrite List.Forall_forall. intros x Hx.
  apply in_number_from in Hx as (j & Hj & Hidx).
  unfold index_key. rewrite Hidx. cbn. lia.
Qed.

Lemma number_from_data (i : nat) (chapters : list stored_chapter) :
  List.map stored_data (number_from i chapters) = List.map stored_data chapters.
Proof.
  revert i. induction chapters as [| c chapters IH]; intros i;
    cbn [number_from List.map]; [reflexivity |].
  now rewrite IH.
Qed.

(** What [save_progress] writes is read back in the same order on resume,
    with the same records: the order of the run is kept, not derived again
    from titles and addresses. *)
Theorem progress_round_trip (chapters : list stored_chapter) :
  load_chapters (save_progress chapters) = save_progress chapters
  /\ List.map stored_data (save_progress chapters)
     = List.map stored_data chapters.
Proof.
  split; [| apply number_from_data].
  unfold save_progress, load_chapters.
  destruct chapters as [| c chapters]; [reflexivity |].
  cbn [number_from stored_index matched].
  apply (sort_by_fixed index_key (number_from 0 (c :: chapters))).
  apply number_from_ascending.
Qed.

(** Reading the progress file neither drops nor adds a chapter. *)
Theorem loading_keeps_the_chapters (loaded : list stored_chapter) :
  Permutation (load_chapters loaded) loaded.
Proof.
  unfold load_chapters. destruct loaded as [| first rest].
  - apply process_perm.
  - destruct (matched (stored_index first)).
    + apply sort_by_perm.
    + apply process_perm.
Qed.

(** ** The number in an address *)

Lemma search_numeric_html_exact (pre d : pystr) :
  d <> [] -> forallb is_digit d = true ->
  search_numeric_html (pre ++ c_slash :: d ++ s_dot_html) = Some d.
Proof.
  intros Hd Hdigits. induction pre as [| c pre IH].
  - cbn [app search_numeric_html]. rewrite Z.eqb_refl.
    rewrite (span_run is_digit d s_dot_html Hdigits) by reflexivity.
    destruct d as [| r d]; [congruence |]. reflexivity.
  - cbn [app search_numeric_html].
    destruct (c =? c_slash); [| exact IH].
    destruct (span_app is_digit (pre ++ c_slash :: d ++ s_dot_html))
      as (Hsplit & Hrun & _).
    destruct (span is_digit (pre ++ c_slash :: d ++ s_dot_html))
      as [[| r run] rest]; [exact IH |].
    cbn [fst snd] in Hsplit, Hrun.
    destruct (str_eqb rest s_dot_html || str_eqb rest s_dot_html_nl) eqn:Hrest;
      [| exact IH].
    exfalso.
    (* a slash would have to be a digit or a character of the ending *)
    assert (Hslash : In c_slash ((r :: run) ++ rest)).
    { rewrite <- Hsplit. apply in_or_app. right. now left. }
    apply in_app_or in Hslash as [Hin | Hin].
    + rewrite forallb_forall in Hrun. apply Hrun in Hin. discriminate Hin.
    + apply orb_true_iff in Hrest as [Hr | Hr]; apply str_eqb_eq in Hr;
        subst rest; cbn in Hin; intuition discriminate.
Qed.

(** The location ordinal of an address that ends in a slash, digits and
    [.html] is the number those digits write when they are at most 4300;
    when they are more, reading them raises, which is caught, and the
    address has no location ordinal. *)
Theorem url_number_of_numeric_page (pre d : pystr) :
  d <> [] -> forallb is_digit d = true ->
  url_number (pre ++ c_slash :: d ++ s_dot_html)
  = if Z.of_nat (List.length d) <=? 4300 then Some (int_of d) else None.
Proof.
  intros Hd Hdigits. unfold url_number.
  now rewrite (search_numeric_html_exact pre d Hd Hdigits).
Qed.

Lemma url_number_of_numeric_page_witness :
  url_number (py "http://n.example/b" ++ c_slash :: py "1000000" ++ s_dot_html)
  = Some 1000000.
Proof.
  rewrite (url_number_of_numeric_page (py "http://n.example/b") (py "1000000")).
  - vm_compute. reflexivity.
  - discriminate.
  - vm_compute. reflexivity.
Defined.

(** ** Candidates of the chapter region *)

(** Every candidate taken from the chapter region has a stripped title of
    two characters or more that holds no word of the block list. *)
Theorem region_candidates_are_clean `{Site} (base : pystr)
    (links : list (pystr * pystr)) (c : chapter) :
  In c (region_chapters base links) ->
  strip (title c) = title c
  /\ 2 <= len (title c)
  /\ forall w, In w blocklist -> contains w (title c) = false.
Proof.
  induction links as [| [href text] links IH]; cbn [region_chapters];
    [intros [] |].
  destruct (fst (is_likely_chapter_link (strip text) href)) eqn:Hok;
    [| exact IH].
  intros [<- | Hin]; [| now apply IH]. cbn [title].
  split; [apply strip_twice |].
  unfold is_likely_chapter_link in Hok. rewrite strip_twice in Hok.
  destruct (existsb (fun x => contains x (strip text)) blocklist) eqn:Hblock;
    [discriminate Hok |].
  destruct (Z.ltb_spec (len (strip text)) 2) as [Hshort | Hlong];
    [discriminate Hok |].
  split; [exact Hlong |].
  intros w Hw. destruct (contains w (strip text)) eqn:Hin; [| reflexivity].
  assert (Hex : existsb (fun x => contains x (strip text)) blocklist = true)
    by (apply existsb_exists; eauto).
  congruence.
Qed.

Lemma region_candidates_are_clean_witness :
  strip (title (mk_chapter (py "第二章 B") url_b)) = py "第二章 B"
  /\ 2 <= len (py "第二章 B").
Proof.
  destruct (region_candidates_are_clean (H := doubled_site) url_listing
              listing_links (mk_chapter (py "第二章 B") url_b))
    as (Hstrip & Hlen & _).
  - vm_compute. right. right. left. reflexivity.
  - split; [exact Hstrip | exact Hlen].
Defined.
